(** * prettier-bot-action: the pull-request formatting check

    A shallow embedding of the two [run] functions of the repository:
    - [Complete.run]  is  src/unnamed/part_000  (status filter, ignore file,
      [runExec] with try/catch, [JSON.stringify] quoting, [setOutput]);
    - [Minimal.run]   is  src/src/main.ts       ([execSync], string match on
      the tool's output, side file prettier_output.txt).

    JavaScript strings are sequences of UTF-16 code units, modelled as
    [list N].  Everything outside the process (the REST API, the file
    system, the [ignore] package, the child process) is an oracle in [Env];
    the pull request's comments are the mutable part of the [World], and
    every call that leaves the process is recorded in its [trace].  Code
    that awaits, throws or loops runs in the monad [M].

    The properties come after the definitions.  Those that hold of both
    files are stated once, over a [Variant]; those that hold of part_000
    only are proved for it and evaluated on main.ts at an input where it
    departs. *)

From Stdlib Require Import String Ascii.
From Stdlib Require Import List NArith Arith Bool Lia.
Import ListNotations.

Abbreviation length := Datatypes.length (only parsing).

Local Open Scope list_scope.

(** ** JavaScript strings *)

Module JS.

Local Open Scope N_scope.

Definition jsstring := list N.

(** An ASCII literal as code units. *)
Definition u (s : string) : jsstring :=
  map N_of_ascii (list_ascii_of_string s).
Arguments u s%_string.

Fixpoint str_eqb (a b : jsstring) : bool :=
  match a, b with
  | [], [] => true
  | x :: a', y :: b' => (x =? y) && str_eqb a' b'
  | _, _ => false
  end.

(** [s.startsWith(p)] *)
Fixpoint startsWith (p s : jsstring) : bool :=
  match p, s with
  | [], _ => true
  | x :: p', y :: s' => (x =? y) && startsWith p' s'
  | _ :: _, [] => false
  end.

(** [s.endsWith(p)] *)
Definition endsWith (s p : jsstring) : bool :=
  startsWith (rev p) (rev s).

(** [s.includes(needle)] *)
Fixpoint includes (s needle : jsstring) : bool :=
  startsWith needle s ||
  match s with
  | [] => false
  | _ :: s' => includes s' needle
  end.

(** [s.replace(pat, '')] with a string pattern: the first occurrence of
    [pat] is removed, nothing else changes. *)
Fixpoint replace_first (pat s : jsstring) {struct s} : jsstring :=
  if startsWith pat s then skipn (length pat) s
  else match s with
       | [] => []
       | c :: s' => c :: replace_first pat s'
       end.

(** ECMAScript WhiteSpace and LineTerminator code points, all in the BMP. *)
Definition isWhiteSpace (c : N) : bool :=
  existsb (N.eqb c)
    [0x9; 0xA; 0xB; 0xC; 0xD; 0x20; 0xA0; 0x1680;
     0x2028; 0x2029; 0x202F; 0x205F; 0x3000; 0xFEFF]
  || ((0x2000 <=? c) && (c <=? 0x200A)).

Fixpoint trimStart (s : jsstring) : jsstring :=
  match s with
  | [] => []
  | c :: s' => if isWhiteSpace c then trimStart s' else s
  end.

Definition trimEnd (s : jsstring) : jsstring := rev (trimStart (rev s)).

(** [s.trim()] *)
Definition trim (s : jsstring) : jsstring := trimEnd (trimStart s).

(** [s.split(sep)] for a separator of one code unit; the result is never
    empty: [''.split(sep)] is [['']]. *)
Fixpoint split (sep : N) (s : jsstring) : list jsstring :=
  match s with
  | [] => [[]]
  | c :: s' =>
      if c =? sep then [] :: split sep s'
      else match split sep s' with
           | l :: ls => (c :: l) :: ls
           | [] => [[c]]
           end
  end.

(** [parts.join(sep)] *)
Fixpoint join (sep : jsstring) (parts : list jsstring) : jsstring :=
  match parts with
  | [] => []
  | [p] => p
  | p :: rest => p ++ sep ++ join sep rest
  end.

(** [JSON.stringify] of a string: QuoteJSONString of ECMA-262. *)
Definition hex_digit (n : N) : N :=
  if n <? 10 then 0x30 + n else 0x61 + (n - 10).

Definition UnicodeEscape (c : N) : jsstring :=
  [0x5C; 0x75; hex_digit ((c / 4096) mod 16); hex_digit ((c / 256) mod 16);
   hex_digit ((c / 16) mod 16); hex_digit (c mod 16)].

Definition isLeadingSurrogate (c : N) : bool := (0xD800 <=? c) && (c <=? 0xDBFF).
Definition isTrailingSurrogate (c : N) : bool := (0xDC00 <=? c) && (c <=? 0xDFFF).

(** One code unit that is not the head of a surrogate pair. *)
Definition quote_unit (c : N) : jsstring :=
  if c =? 0x08 then [0x5C; 0x62]          (* \b *)
  else if c =? 0x09 then [0x5C; 0x74]     (* \t *)
  else if c =? 0x0A then [0x5C; 0x6E]     (* \n *)
  else if c =? 0x0C then [0x5C; 0x66]     (* \f *)
  else if c =? 0x0D then [0x5C; 0x72]     (* \r *)
  else if c =? 0x22 then [0x5C; 0x22]     (* \dquote *)
  else if c =? 0x5C then [0x5C; 0x5C]     (* \\ *)
  else if (c <? 0x20) || isLeadingSurrogate c || isTrailingSurrogate c
       then UnicodeEscape c
  else [c].

Fixpoint quote_units (s : jsstring) : jsstring :=
  match s with
  | [] => []
  | c :: s' =>
      if isLeadingSurrogate c then
        match s' with
        | d :: s'' =>
            if isTrailingSurrogate d then c :: d :: quote_units s''
            else UnicodeEscape c ++ quote_units s'
        | [] => UnicodeEscape c
        end
      else quote_unit c ++ quote_units s'
  end.

Definition JSON_stringify (s : jsstring) : jsstring :=
  [0x22] ++ quote_units s ++ [0x22].

(** A code unit that [JSON.stringify] copies unchanged. *)
Definition plain_unit (c : N) : bool :=
  (0x20 <=? c) && negb (c =? 0x22) && negb (c =? 0x5C)
  && negb (isLeadingSurrogate c) && negb (isTrailingSurrogate c).

(** Code units the sources write as escapes or as emoji. *)
Definition LF : N := 0xA.
Definition nl : jsstring := [LF].
Definition party_popper : jsstring := [0xD83C; 0xDF89].   (* U+1F389 *)
Definition police_light : jsstring := [0xD83D; 0xDEA8].   (* U+1F6A8 *)
Definition lipstick : jsstring := [0xD83D; 0xDC84].       (* U+1F484 *)

End JS.
Import JS.

(** ** The world outside the process *)

(** An entry of [pulls.listFiles]. *)
Record PullFile := mkPullFile { filename : jsstring; status : jsstring }.

(** An entry of [issues.listComments]; [body] is the [comment.body!] the
    sources assert to be a string. *)
Record Comment := mkComment { id : nat; body : jsstring }.

(** What a rejected [exec] (or a throwing [execSync]) carries. *)
Record ExecException := mkExecException { code : nat; e_stdout : jsstring; e_stderr : jsstring }.

(** Every call that leaves the process, in program order. *)
Inductive Event : Type :=
| ListFiles (per_page page : nat)
| ExistsSync (path : jsstring)
| ReadFileSync (path : jsstring)
| Exec (cmd : jsstring)
| ListComments
| UpdateComment (comment_id : nat) (new_body : jsstring)
| CreateComment (new_body : jsstring)
| SetFailed (message : jsstring)
| SetOutput (name : jsstring) (value : nat)
| ConsoleLog (line : jsstring).

(** The oracles of one run: the action's inputs, the file-list endpoint
    (page [page] at size [per_page]), the file system, the matcher of the
    [ignore] package ([ignore().add(content).ignores(f)]: [None] when
    it refuses the name, as the package does with a RangeError for a
    name such as [./a.ts]), and the child process ([inr] when it exits
    non-zero or cannot run).  The endpoints always answer: a failing
    request, which neither file catches, is left out. *)
Record Env := mkEnv {
  getInput : jsstring -> jsstring;
  listFiles : nat -> nat -> list PullFile;
  existsSync : jsstring -> bool;
  readFileSync : jsstring -> option jsstring;
  ignores : jsstring -> jsstring -> option bool;
  exec : jsstring -> (jsstring * jsstring) + ExecException
}.

(** The comments of the pull request, oldest first, which is the order
    [issues.listComments] serves them in, and the calls made so far. *)
Record World := mkWorld { comments : list Comment; trace : list Event }.

(** ** A state and exception monad for [async] code

    [Throw] is a rejected promise or a thrown error: the effects before it
    stay.  [OutOfFuel] is a [while (true)] that has not left yet. *)

Inductive Result (A : Type) : Type :=
| Ret (a : A)
| Throw (e : jsstring)
| OutOfFuel.
Arguments Ret {A} a.
Arguments Throw {A} e.
Arguments OutOfFuel {A}.

Definition M (A : Type) : Type := World -> Result A * World.

Definition ret {A} (a : A) : M A := fun w => (Ret a, w).

Definition bind {A B} (m : M A) (k : A -> M B) : M B :=
  fun w =>
    match m w with
    | (Ret a, w') => k a w'
    | (Throw e, w') => (Throw e, w')
    | (OutOfFuel, w') => (OutOfFuel, w')
    end.

Definition throw {A} (e : jsstring) : M A := fun w => (Throw e, w).

Definition out_of_fuel {A} : M A := fun w => (OutOfFuel, w).

Notation "x <- m ;; k" := (bind m (fun x => k))
  (at level 61, m at next level, right associativity).
Notation "m ;;; k" := (bind m (fun _ => k))
  (at level 61, right associativity).

Definition emit (e : Event) : M unit :=
  fun w => (Ret tt, mkWorld (comments w) (trace w ++ [e])).

(** *** The REST endpoints and host calls *)

Definition pulls_listFiles (env : Env) (per_page page : nat) : M (list PullFile) :=
  emit (ListFiles per_page page) ;;; ret (listFiles env per_page page).

(** Both files call [issues.listComments] once, with neither [per_page]
    nor [page] (part_000 lines 62-66 and 95-99, main.ts lines 39-43 and
    76-80): the endpoint serves the first page, 30 comments, and what
    lies beyond it is not seen. *)
Definition first_page (cs : list Comment) : list Comment := firstn 30 cs.

Arguments first_page : simpl never.

Definition issues_listComments : M (list Comment) :=
  emit ListComments ;;; (fun w => (Ret (first_page (comments w)), w)).

(** PATCH of one comment: the body is replaced, not appended to. *)
Definition set_body (comment_id : nat) (new_body : jsstring) (c : Comment) : Comment :=
  if (id c =? comment_id)%nat then mkComment (id c) new_body else c.

Definition issues_updateComment (comment_id : nat) (new_body : jsstring) : M unit :=
  emit (UpdateComment comment_id new_body) ;;;
  (fun w => (Ret tt, mkWorld (map (set_body comment_id new_body) (comments w)) (trace w))).

(** POST of a comment: the server gives it an id no comment has yet. *)
Definition fresh_id (cs : list Comment) : nat := S (list_max (map id cs)).

Definition issues_createComment (new_body : jsstring) : M unit :=
  emit (CreateComment new_body) ;;;
  (fun w => (Ret tt, mkWorld (comments w ++ [mkComment (fresh_id (comments w)) new_body]) (trace w))).

Definition fs_existsSync (env : Env) (path : jsstring) : M bool :=
  emit (ExistsSync path) ;;; ret (existsSync env path).

Definition fs_readFileSync (env : Env) (path : jsstring) : M jsstring :=
  emit (ReadFileSync path) ;;;
  match readFileSync env path with
  | Some content => ret content
  | None => throw (u "ENOENT: no such file or directory")
  end.

Definition setFailed (message : jsstring) : M unit := emit (SetFailed message).
Definition setOutput (name : jsstring) (value : nat) : M unit := emit (SetOutput name value).
Definition console_log (line : jsstring) : M unit := emit (ConsoleLog line).

(** *** What both variants share, word for word *)

Definition commentIdentifier : jsstring := u "<!-- prettier-check-comment -->".

(** [c => c.body!.includes(commentIdentifier)] *)
Definition is_marker (c : Comment) : bool := includes (body c) commentIdentifier.

(** [/\.(e1|e2|...)$/.test(f)]: [f] ends with a dot and one of the
    extensions. *)
Definition test_extension (exts : list jsstring) (f : jsstring) : bool :=
  existsb (fun e => endsWith f (u "." ++ e)) exts.

(** [line => line.trim().replace('[warn] ', '')] *)
Definition strip_warn (line : jsstring) : jsstring :=
  replace_first (u "[warn] ") (trim line).

(** The number of comments that carry the sentinel. *)
Definition marker_count (cs : list Comment) : nat := length (filter is_marker cs).

(** ** src/unnamed/part_000: the complete variant *)

Module Complete.

Section Run.
Variable env : Env.

(** Lines 16-36.  [fuel] bounds the turns of the [while (true)] loop. *)
Fixpoint getAllChangedFiles_loop (fuel page : nat) (changedFiles : list jsstring)
  : M (list jsstring) :=
  match fuel with
  | O => out_of_fuel
  | S fuel' =>
      files <- pulls_listFiles env 100 page ;;
      if (length files =? 0)%nat then ret changedFiles
      else
        let notDeletedFiles :=
          filter (fun f => negb (str_eqb (status f) (u "removed"))) files in
        getAllChangedFiles_loop fuel' (S page)
          (changedFiles ++ map filename notDeletedFiles)
  end.

Definition getAllChangedFiles (fuel : nat) : M (list jsstring) :=
  getAllChangedFiles_loop fuel 1 [].

(** Line 40: the extensions of the regular expression. *)
Definition extensions : list jsstring :=
  [u "js"; u "jsx"; u "ts"; u "tsx"; u "json"; u "json5"; u "css"; u "less";
   u "scss"; u "sass"; u "html"; u "md"; u "mdx"; u "vue"].

(** Line 44, [changedFiles.filter(f => !ig.ignores(f))]: the names the
    rules do not match, in order; nothing when the matcher refuses one
    of the names, whose exception ends the filter. *)
Fixpoint unignored (test : jsstring -> option bool) (files : list jsstring)
  : option (list jsstring) :=
  match files with
  | [] => Some []
  | f :: rest =>
      match test f with
      | None => None
      | Some ignored =>
          match unignored test rest with
          | None => None
          | Some kept => Some (if ignored then kept else f :: kept)
          end
      end
  end.

(** Lines 38-45: the filtered change set. *)
Definition changeSet (fuel : nat) : M (list jsstring) :=
  changedFiles <- getAllChangedFiles fuel ;;
  let changedFiles := filter (test_extension extensions) changedFiles in
  let prettierIgnore := getInput env (u "prettier-ignore") in
  found <- fs_existsSync env prettierIgnore ;;
  if found then
    content <- fs_readFileSync env prettierIgnore ;;
    match unignored (ignores env content) changedFiles with
    | Some kept => ret kept
    | None => throw (u "RangeError: path should be a `path.relative()`d string")
    end
  else ret changedFiles.

(** Lines 47-56: a rejected [exec] is caught and returned as [err]. *)
Record ExecOutcome := mkExecOutcome
  { err : option ExecException; stdout : jsstring; stderr : jsstring }.

Definition runExec (cmd : jsstring) : M ExecOutcome :=
  emit (Exec cmd) ;;;
  match exec env cmd with
  | inl (out, errout) => ret (mkExecOutcome None out errout)
  | inr error => ret (mkExecOutcome (Some error) [] (e_stderr error))
  end.

(** Line 79: the command of the check. *)
Definition checkCommand (changedFiles : list jsstring) : jsstring :=
  u "npx prettier --check " ++ join (u " ") changedFiles.

(** Lines 61 and 84. *)
Definition passBody : jsstring :=
  commentIdentifier ++ nl ++ u "Prettier check passed! " ++ party_popper.

(** Lines 86-87 and 89: the lines but the last, each without its prefix. *)
Definition offendingFiles (prettierOutput : jsstring) : list jsstring :=
  map strip_warn (removelast (split LF (trim prettierOutput))).

(** Lines 88-91. *)
Definition prettierCommand (prettierOutput : jsstring) : jsstring :=
  u "npx prettier --write "
  ++ join (u " ") (map JSON_stringify (offendingFiles prettierOutput)).

(** Line 92. *)
Definition failBody (prettierOutput : jsstring) : jsstring :=
  commentIdentifier ++ nl ++ police_light
  ++ u " Prettier check failed for the following files:" ++ nl ++ nl
  ++ u "```" ++ nl ++ trim prettierOutput ++ nl ++ u "```" ++ nl ++ nl
  ++ u "To fix the issue, run the following command:" ++ nl ++ nl
  ++ u "```" ++ nl ++ prettierCommand prettierOutput ++ nl ++ u "```".

(** Lines 80-93. *)
Definition composeBody (child : ExecOutcome) : jsstring :=
  let prettierOutput := trim (stderr child) in
  match err child with
  | None => passBody
  | Some _ => failBody prettierOutput
  end.

(** Lines 10-127. *)
Definition run (fuel : nat) : M unit :=
  changedFiles <- changeSet fuel ;;
  if (length changedFiles =? 0)%nat then
    listed <- issues_listComments ;;
    match find is_marker listed with
    | Some comment => issues_updateComment (id comment) passBody
    | None => ret tt
    end
  else
    child <- runExec (checkCommand changedFiles) ;;
    let newBody := composeBody child in
    listed <- issues_listComments ;;
    match find is_marker listed with
    | Some comment => issues_updateComment (id comment) newBody
    | None => issues_createComment newBody
    end ;;;
    match err child with
    | Some _ =>
        setFailed (u "Prettier check failed") ;;; setOutput (u "exitCode") 1
    | None =>
        console_log (u "Prettier check passed") ;;; setOutput (u "exitCode") 0
    end.

End Run.

End Complete.

(** ** src/src/main.ts: the minimal variant *)

Module Minimal.

Section Run.
Variable env : Env.

(** Lines 11-29: no entry is left out, whatever its status. *)
Fixpoint getAllChangedFiles_loop (fuel page : nat) (changedFiles : list jsstring)
  : M (list jsstring) :=
  match fuel with
  | O => out_of_fuel
  | S fuel' =>
      files <- pulls_listFiles env 100 page ;;
      if (length files =? 0)%nat then ret changedFiles
      else getAllChangedFiles_loop fuel' (S page)
             (changedFiles ++ map filename files)
  end.

Definition getAllChangedFiles (fuel : nat) : M (list jsstring) :=
  getAllChangedFiles_loop fuel 1 [].

(** Line 32. *)
Definition extensions : list jsstring :=
  [u "js"; u "jsx"; u "ts"; u "tsx"; u "json"; u "css"; u "md"].

(** Lines 31-33. *)
Definition changeSet (fuel : nat) : M (list jsstring) :=
  files <- getAllChangedFiles fuel ;;
  ret (filter (test_extension extensions) files).

(** Lines 58-61: [execSync] returns the child's stdout and throws when the
    child exits non-zero. *)
Definition execSync (cmd : jsstring) : M jsstring :=
  emit (Exec cmd) ;;;
  match exec env cmd with
  | inl (out, _) => ret out
  | inr _ => throw (u "Error: Command failed: " ++ cmd)
  end.

Definition checkCommand (changedFiles : list jsstring) : jsstring :=
  u "npx prettier --check " ++ join (u " ") changedFiles.

(** Line 36. *)
Definition body0 : jsstring :=
  commentIdentifier ++ nl ++ u "Prettier check passed! " ++ party_popper.

(** Line 66. *)
Definition passBody : jsstring :=
  commentIdentifier ++ nl ++ u "**" ++ lipstick ++ u "Prettier check passed!** "
  ++ party_popper.

(** Lines 69-72: the first and the last line go, and nothing is quoted. *)
Definition prettierCommand (PRETTIER_OUTPUT : jsstring) : jsstring :=
  let lines := removelast (tl (split LF (trim PRETTIER_OUTPUT))) in
  u "npx prettier --write " ++ join (u " ") (map strip_warn lines).

(** Line 73. *)
Definition failBody (PRETTIER_OUTPUT : jsstring) : jsstring :=
  commentIdentifier ++ nl ++ police_light
  ++ u "Prettier check failed for the following files:" ++ nl ++ nl
  ++ u "```" ++ nl ++ trim PRETTIER_OUTPUT ++ nl ++ u "```" ++ nl ++ nl
  ++ u "To fix the issue, run the following command:" ++ nl ++ nl
  ++ u "```" ++ nl ++ prettierCommand PRETTIER_OUTPUT ++ nl ++ u "```".

(** Lines 6-108.  [core] is bound nowhere in the file (line 1 imports
    [getInput] only), so reaching line 103 throws a ReferenceError. *)
Definition run (fuel : nat) : M unit :=
  changedFiles <- changeSet fuel ;;
  if (length changedFiles =? 0)%nat then
    listed <- issues_listComments ;;
    match find is_marker listed with
    | Some comment => issues_updateComment (id comment) body0
    | None => ret tt
    end
  else
    prettierCheck <- execSync (checkCommand changedFiles) ;;
    let hasWarnings := includes prettierCheck (u "Run Prettier to fix") in
    newBody <- (if negb hasWarnings then ret passBody
                else PRETTIER_OUTPUT <- fs_readFileSync env (u "prettier_output.txt") ;;
                     ret (failBody PRETTIER_OUTPUT)) ;;
    listed <- issues_listComments ;;
    match find is_marker listed with
    | Some comment => issues_updateComment (id comment) newBody
    | None => issues_createComment newBody
    end ;;;
    if hasWarnings then throw (u "ReferenceError: core is not defined")
    else console_log (u "Prettier check passed").

End Run.

End Minimal.

(** ** Vocabulary of the statements *)

(** The world after more calls. *)
Definition add_events (w : World) (evs : list Event) : World :=
  mkWorld (comments w) (trace w ++ evs).

(** A line of the tool's diagnostics for one file. *)
Definition warn_line (f : jsstring) : jsstring := u "[warn] " ++ f.

(** A file name the tool can print on a line of its own: not empty, no
    line feed in it, no whitespace at its end. *)
Definition per_file_name (f : jsstring) : Prop :=
  f <> [] /\ trimEnd f = f /\ ~ In LF f.

(** [f => f.status !== 'removed'] *)
Definition not_removed (f : PullFile) : bool :=
  negb (str_eqb (status f) (u "removed")).

(** The comments after an update-or-create with [newBody], and the call
    that does it: the marker is looked for among the listed comments. *)
Definition upserted (newBody : jsstring) (cs : list Comment) : list Comment :=
  match find is_marker (first_page cs) with
  | Some c => map (set_body (id c) newBody) cs
  | None => cs ++ [mkComment (fresh_id cs) newBody]
  end.

Definition upsert_call (newBody : jsstring) (cs : list Comment) : Event :=
  match find is_marker (first_page cs) with
  | Some c => UpdateComment (id c) newBody
  | None => CreateComment newBody
  end.

(** The comments after an update that creates nothing, and its calls. *)
Definition updated_only (newBody : jsstring) (cs : list Comment) : list Comment :=
  match find is_marker (first_page cs) with
  | Some c => map (set_body (id c) newBody) cs
  | None => cs
  end.

Definition update_calls (newBody : jsstring) (cs : list Comment) : list Event :=
  match find is_marker (first_page cs) with
  | Some c => [UpdateComment (id c) newBody]
  | None => []
  end.

(** *** The sentinel, said without the code's test *)

(** [part] occurs in [s]. *)
Definition occurs_in (part s : jsstring) : Prop :=
  exists pre post, s = pre ++ part ++ post.

(** A comment whose body contains the sentinel. *)
Definition carries_sentinel (c : Comment) : Prop :=
  occurs_in commentIdentifier (body c).

(** [m] is the first of the listed comments to carry the sentinel; and
    none of the listed comments carries it. *)
Definition first_listed_marker (cs : list Comment) (m : Comment) : Prop :=
  exists before after,
    first_page cs = before ++ m :: after
    /\ carries_sentinel m
    /\ forall x, In x before -> ~ carries_sentinel x.

Definition no_listed_marker (cs : list Comment) : Prop :=
  forall x, In x (first_page cs) -> ~ carries_sentinel x.

(** A run can see the marker comment, or the one it will create: the
    pull request has fewer than 30 comments, or a comment with the
    sentinel is among its first 30. *)
Definition marker_in_reach (cs : list Comment) : Prop :=
  length cs < 30 \/ 1 <= marker_count (first_page cs).

(** Calls of the collector: the file-list endpoint and the ignore file. *)
Definition collector_event (e : Event) : Prop :=
  match e with
  | ListFiles _ _ | ExistsSync _ | ReadFileSync _ => True
  | _ => False
  end.

(** Calls that tell the host how the run went. *)
Definition outcome_event (e : Event) : Prop :=
  match e with
  | SetFailed _ | SetOutput _ _ | ConsoleLog _ => True
  | _ => False
  end.

Definition exec_event (e : Event) : Prop :=
  match e with Exec _ => True | _ => False end.

Definition create_event (e : Event) : Prop :=
  match e with CreateComment _ => True | _ => False end.

(** What [Complete.runExec] returns for a command. *)
Definition exec_outcome (env : Env) (cmd : jsstring) : Complete.ExecOutcome :=
  match exec env cmd with
  | inl (out, errout) => Complete.mkExecOutcome None out errout
  | inr error => Complete.mkExecOutcome (Some error) [] (e_stderr error)
  end.

(** The last two calls of a run of the complete variant that checked
    something. *)
Definition verdict_calls (child : Complete.ExecOutcome) : list Event :=
  match Complete.err child with
  | Some _ => [SetFailed (u "Prettier check failed"); SetOutput (u "exitCode") 1]
  | None => [ConsoleLog (u "Prettier check passed"); SetOutput (u "exitCode") 0]
  end.

(** [f] does not get through the filters of the complete variant: its
    extension is not one of the list, or the ignore file exists and its
    rules match [f]. *)
Definition filtered_out (env : Env) (f : jsstring) : Prop :=
  test_extension Complete.extensions f = false
  \/ (existsSync env (getInput env (u "prettier-ignore")) = true
      /\ forall content,
           readFileSync env (getInput env (u "prettier-ignore")) = Some content ->
           ignores env content f = Some true).

(** An ignore file that exists can be read. *)
Definition ignore_file_readable (env : Env) : Prop :=
  existsSync env (getInput env (u "prettier-ignore")) = true ->
  readFileSync env (getInput env (u "prettier-ignore")) <> None.

(** *** Both source files under one name *)

Inductive Variant : Type := complete | minimal.

Definition getAllChangedFiles_of (v : Variant) : Env -> nat -> M (list jsstring) :=
  match v with
  | complete => Complete.getAllChangedFiles
  | minimal => Minimal.getAllChangedFiles
  end.

Definition changeSet_of (v : Variant) : Env -> nat -> M (list jsstring) :=
  match v with
  | complete => Complete.changeSet
  | minimal => Minimal.changeSet
  end.

Definition run_of (v : Variant) : Env -> nat -> M unit :=
  match v with
  | complete => Complete.run
  | minimal => Minimal.run
  end.


Definition prettierCommand_of (v : Variant) : jsstring -> jsstring :=
  match v with
  | complete => Complete.prettierCommand
  | minimal => Minimal.prettierCommand
  end.

(** The names the collector keeps of the entries it was served. *)
Definition collected (v : Variant) (entries : list PullFile) : list jsstring :=
  match v with
  | complete => map filename (filter not_removed entries)
  | minimal => map filename entries
  end.

(** The diagnostic text a variant is written for: the per-file lines and
    the lines it throws away, the last one in part_000, the first and
    the last one in main.ts. *)
Definition diagnostic_lines (v : Variant) (header : jsstring) (names : list jsstring)
    (footer : jsstring) : list jsstring :=
  match v with
  | complete => map warn_line names ++ [footer]
  | minimal => header :: map warn_line names ++ [footer]
  end.

(** A file name as the remediation command of a variant shows it. *)
Definition argument_of (v : Variant) (f : jsstring) : jsstring :=
  match v with
  | complete => JSON_stringify f
  | minimal => f
  end.

(** [f] does not get through the filters of a variant. *)
Definition filtered_out_of (v : Variant) (env : Env) (f : jsstring) : Prop :=
  match v with
  | complete => filtered_out env f
  | minimal => test_extension Minimal.extensions f = false
  end.

(** The pass message of an empty change set: part_000 line 61, main.ts
    line 36. *)
Definition pass_message : jsstring :=
  commentIdentifier ++ nl ++ u "Prettier check passed! " ++ party_popper.

(** *** The course of a run *)

(** What a run does to the comments, once its inputs are fixed: nothing,
    an update of the marker comment if there is one, or an update or
    create. *)
Inductive Effect : Type :=
| Untouched
| UpdateOnly (newBody : jsstring)
| Upsert (newBody : jsstring).

Definition apply_effect (eff : Effect) (cs : list Comment) : list Comment :=
  match eff with
  | Untouched => cs
  | UpdateOnly b => updated_only b cs
  | Upsert b => upserted b cs
  end.

Definition effect_calls (eff : Effect) (cs : list Comment) : list Event :=
  match eff with
  | Untouched => []
  | UpdateOnly b => ListComments :: update_calls b cs
  | Upsert b => [ListComments; upsert_call b cs]
  end.

(** The body an effect writes, if it writes. *)
Definition effect_body (eff : Effect) : option jsstring :=
  match eff with
  | Untouched => None
  | UpdateOnly b | Upsert b => Some b
  end.

(** A request for a page of the file list. *)
Definition lists_files (e : Event) : Prop :=
  match e with ListFiles _ _ => True | _ => False end.

(** A call that writes a comment. *)
Definition write_event (e : Event) : Prop :=
  match e with
  | UpdateComment _ _ | CreateComment _ => True
  | _ => False
  end.

(** The calls of a run in the order of its four stages: collecting,
    checking, commenting, telling the host. *)
Record Course := mkCourse {
  collecting : list Event;
  checking : list Event;
  commenting : Effect;
  telling : list Event
}.

Definition course_calls (c : Course) (cs : list Comment) : list Event :=
  collecting c ++ checking c ++ effect_calls (commenting c) cs ++ telling c.

(** The stages hold what they should: the collector's calls; no check,
    or the check of a non-empty list of names, after which main.ts may
    read its side file; a body that starts with the sentinel; at most two
    calls to the host; and no create without a check. *)
Definition well_staged (c : Course) : Prop :=
  Forall collector_event (collecting c)
  /\ (checking c = []
      \/ exists names, names <> []
           /\ (checking c = [Exec (u "npx prettier --check " ++ join (u " ") names)]
               \/ checking c = [Exec (u "npx prettier --check " ++ join (u " ") names);
                                ReadFileSync (u "prettier_output.txt")]))
  /\ (forall b, effect_body (commenting c) = Some b -> startsWith commentIdentifier b = true)
  /\ Forall outcome_event (telling c)
  /\ length (telling c) <= 2
  /\ (checking c = [] -> forall b, commenting c <> Upsert b).

(** *** The filters and the failure report *)

(** The extensions a variant lets through: line 40 of part_000, line 32
    of main.ts. *)
Definition extensions_of (v : Variant) : list jsstring :=
  match v with
  | complete => Complete.extensions
  | minimal => Minimal.extensions
  end.

(** The ignore rules take [f] out: part_000 found its ignore file, read
    it, and its rules match [f].  main.ts has no ignore rules. *)
Definition ignored_by (v : Variant) (env : Env) (f : jsstring) : Prop :=
  match v with
  | complete =>
      existsSync env (getInput env (u "prettier-ignore")) = true
      /\ exists content,
           readFileSync env (getInput env (u "prettier-ignore")) = Some content
           /\ ignores env content f = Some true
  | minimal => False
  end.

(** The diagnostic text a failure comment is built from, if the check of
    [cs] leads to one: in part_000 the stderr of a check that exits
    non-zero (lines 52-54 and 80), in main.ts the side file, read when the
    check exits with 0 and prints the phrase (lines 62 and 68). *)
Definition reported_text (v : Variant) (env : Env) (cs : list jsstring)
  : option jsstring :=
  match v with
  | complete =>
      match exec env (Complete.checkCommand cs) with
      | inr error => Some (e_stderr error)
      | inl _ => None
      end
  | minimal =>
      match exec env (Minimal.checkCommand cs) with
      | inl (out, _) =>
          if includes out (u "Run Prettier to fix")
          then readFileSync env (u "prettier_output.txt")
          else None
      | inr _ => None
      end
  end.

(** ** Concrete pull requests *)

(** An endpoint that serves [files] in pages. *)
Definition paged (files : list PullFile) (per_page page : nat) : list PullFile :=
  firstn per_page (skipn (per_page * (page - 1)) files).

(** Four changed files: one is an image, one was removed. *)
Definition pr_files : list PullFile :=
  [mkPullFile (u "a.ts") (u "modified"); mkPullFile (u "b.png") (u "added");
   mkPullFile (u "c d.md") (u "added"); mkPullFile (u "gone.ts") (u "removed")].

(** Only an image changed. *)
Definition pr_image_only : list PullFile := [mkPullFile (u "b.png") (u "added")].

(** The stderr of a check of two unformatted files, one with a space in
    its name. *)
Definition stderr_two_files : jsstring :=
  u "[warn] a.ts" ++ nl ++ u "[warn] c d.md" ++ nl
  ++ u "[warn] Code style issues found in 2 files. Run Prettier with --write to fix."
  ++ nl.

(** A diagnostic text with a header, as main.ts expects it in its side
    file. *)
Definition output_with_header : jsstring :=
  u "Checking formatting..." ++ nl ++ stderr_two_files.

Definition check_fails : (jsstring * jsstring) + ExecException :=
  inr (mkExecException 1 (u "Checking formatting..." ++ nl) stderr_two_files).

Definition check_passes : (jsstring * jsstring) + ExecException :=
  inl (u "Checking formatting..." ++ nl
       ++ u "All matched files use Prettier code style!" ++ nl, []).

(** The same for the one file [a.ts]. *)
Definition stderr_one_file : jsstring :=
  u "[warn] a.ts" ++ nl
  ++ u "[warn] Code style issues found in the above file. Run Prettier with --write to fix."
  ++ nl.

Definition check_fails_one : (jsstring * jsstring) + ExecException :=
  inr (mkExecException 1 (u "Checking formatting..." ++ nl) stderr_one_file).

(** No ignore file; the check answers [result] whatever the command. *)
Definition demo_env (files : list PullFile)
    (result : (jsstring * jsstring) + ExecException) : Env :=
  mkEnv (fun _ => u ".prettierignore") (paged files) (fun _ => false)
        (fun _ => None) (fun _ _ => Some false) (fun _ => result).

(** A child process that exits with 0 and prints the phrase main.ts looks
    for, and a side file to read: the only way to line 103 of main.ts. *)
Definition phrase_env (files : list PullFile) : Env :=
  mkEnv (fun _ => u ".prettierignore") (paged files) (fun _ => false)
        (fun _ => Some output_with_header) (fun _ _ => Some false)
        (fun _ => inl (u "Run Prettier to fix" ++ nl, [])).

(** A pull request nobody has commented on, and one with a human comment
    and an earlier marker comment. *)
Definition no_comments : World := mkWorld [] [].

Definition two_comments : World :=
  mkWorld [mkComment 7 (u "LGTM");
           mkComment 9 (commentIdentifier ++ nl ++ u "old report")] [].

(** 150 changed files, [file000.ts] to [file149.ts]. *)
Definition file_number (i : nat) : PullFile :=
  mkPullFile (u "file" ++ [N.of_nat (48 + i / 100); N.of_nat (48 + (i / 10) mod 10);
                           N.of_nat (48 + i mod 10)] ++ u ".ts") (u "added").

Definition pr_150_files : list PullFile := map file_number (seq 0 150).

(** One source file changed. *)
Definition pr_one_file : list PullFile := [mkPullFile (u "a.ts") (u "modified")].

(** Two comments that both carry the sentinel. *)
Definition twice_marked : World :=
  mkWorld [mkComment 3 (commentIdentifier ++ nl ++ u "first");
           mkComment 4 (u "> " ++ commentIdentifier ++ nl ++ u "quoted")] [].

(** An endpoint whose every page has the one entry [a.ts]: it never
    answers with an empty page. *)
Definition endless_env : Env :=
  mkEnv (fun _ => u ".prettierignore")
        (fun _ _ => [mkPullFile (u "a.ts") (u "modified")])
        (fun _ => false) (fun _ => None) (fun _ _ => Some false) (fun _ => check_passes).

(** An ignore file that exists and holds one rule, matched by [c d.md]
    alone, with a matcher that refuses the names that start with [./];
    and an ignore file that exists and cannot be read. *)
Definition ignoring_env (files : list PullFile)
    (result : (jsstring * jsstring) + ExecException) : Env :=
  mkEnv (fun _ => u ".prettierignore") (paged files) (fun _ => true)
        (fun _ => Some (u "*.md"))
        (fun content f =>
           if startsWith (u "./") f then None
           else Some (str_eqb content (u "*.md") && endsWith f (u ".md")))
        (fun _ => result).

Definition unreadable_env (files : list PullFile) : Env :=
  mkEnv (fun _ => u ".prettierignore") (paged files) (fun _ => true)
        (fun _ => None) (fun _ _ => Some false) (fun _ => check_passes).

(** A changed file under a name the matcher refuses. *)
Definition pr_dot_slash : list PullFile := [mkPullFile (u "./a.ts") (u "modified")].

(** A busy pull request: 30 comments by people, with the ids 1 to 30; and
    the same with an earlier report as its 31st comment. *)
Definition crowd (n : nat) : list Comment :=
  map (fun i => mkComment i (u "LGTM")) (seq 1 n).

Definition thirty_comments : World := mkWorld (crowd 30) [].

Definition marker_beyond : World :=
  mkWorld (crowd 30 ++ [mkComment 31 (commentIdentifier ++ nl ++ u "old report")]) [].

(** * Properties *)

(** ** Strings *)

Lemma str_eqb_eq (a b : jsstring) : str_eqb a b = true <-> a = b.
Proof.
  revert b; induction a as [|x a IH]; intros [|y b]; simpl; split;
    try congruence; try reflexivity.
  - intros H. apply andb_true_iff in H as [Hx Hab].
    apply N.eqb_eq in Hx. apply IH in Hab. congruence.
  - intros H. injection H as -> ->. rewrite N.eqb_refl. simpl. now apply IH.
Qed.

Lemma startsWith_app (p r : jsstring) : startsWith p (p ++ r) = true.
Proof.
  induction p as [|x p IH]; simpl; [reflexivity|].
  now rewrite N.eqb_refl, IH.
Qed.

Lemma includes_eq (s needle : jsstring) :
  includes s needle =
  startsWith needle s || match s with [] => false | _ :: s' => includes s' needle end.
Proof. destruct s; reflexivity. Qed.

Lemma includes_prefix (p r : jsstring) : includes (p ++ r) p = true.
Proof. now rewrite includes_eq, startsWith_app. Qed.

Lemma startsWith_spec (p s : jsstring) :
  startsWith p s = true <-> exists r, s = p ++ r.
Proof.
  split.
  - revert s. induction p as [|x p IH]; intros s H; [now exists s|].
    destruct s as [|y s]; [discriminate|]. cbn in H.
    apply andb_true_iff in H as [Hx Hp]. apply N.eqb_eq in Hx. subst y.
    destruct (IH s Hp) as (r & ->). now exists r.
  - intros (r & ->). apply startsWith_app.
Qed.

Lemma includes_skip (p s needle : jsstring) :
  includes s needle = true -> includes (p ++ s) needle = true.
Proof.
  intros H. induction p as [|c p IH]; [exact H|].
  cbn [app]. rewrite includes_eq, IH. apply orb_true_r.
Qed.

Lemma includes_spec (s needle : jsstring) :
  includes s needle = true <-> occurs_in needle s.
Proof.
  unfold occurs_in. split.
  - induction s as [|c s IH]; rewrite includes_eq; intros H;
      apply orb_true_iff in H as [H | H]; try discriminate.
    + apply startsWith_spec in H as (r & ->). now exists [], r.
    + apply startsWith_spec in H as (r & ->). now exists [], r.
    + destruct (IH H) as (pre & post & ->). now exists (c :: pre), post.
  - intros (pre & post & ->). apply includes_skip, includes_prefix.
Qed.

Lemma replace_first_eq (pat s : jsstring) :
  replace_first pat s =
  if startsWith pat s then skipn (length pat) s
  else match s with [] => [] | c :: s' => c :: replace_first pat s' end.
Proof. destruct s; reflexivity. Qed.

Lemma replace_first_prefix (p r : jsstring) : replace_first p (p ++ r) = r.
Proof.
  rewrite replace_first_eq, startsWith_app.
  induction p; simpl; auto.
Qed.

(** *** trim *)

Lemma trimStart_length (s : jsstring) : (length (trimStart s) <= length s)%nat.
Proof.
  induction s as [|c s IH]; simpl; [lia|].
  destruct (isWhiteSpace c); simpl; lia.
Qed.

Lemma trimStart_fixed_head (c : N) (s : jsstring) :
  trimStart (c :: s) = c :: s -> isWhiteSpace c = false.
Proof.
  simpl. destruct (isWhiteSpace c); [|reflexivity].
  intros H. pose proof (trimStart_length s) as L.
  rewrite H in L. simpl in L. lia.
Qed.

Lemma trimStart_fixed_app (x y : jsstring) :
  x <> [] -> trimStart x = x -> trimStart (x ++ y) = x ++ y.
Proof.
  destruct x as [|c x]; [congruence|]. intros _ H.
  apply trimStart_fixed_head in H. simpl. now rewrite H.
Qed.

Lemma trimStart_idem (s : jsstring) : trimStart (trimStart s) = trimStart s.
Proof.
  induction s as [|c s IH]; simpl; [reflexivity|].
  destruct (isWhiteSpace c) eqn:E; [exact IH|]. simpl. now rewrite E.
Qed.

Lemma trimStart_snoc (r : jsstring) (c : N) :
  isWhiteSpace c = false -> trimStart (r ++ [c]) = trimStart r ++ [c].
Proof.
  intros H. induction r as [|e r IH]; simpl.
  - now rewrite H.
  - destruct (isWhiteSpace e); [exact IH | reflexivity].
Qed.

Lemma trimEnd_cons (c : N) (s : jsstring) :
  isWhiteSpace c = false -> trimEnd (c :: s) = c :: trimEnd s.
Proof.
  intros H. unfold trimEnd. simpl rev at 2.
  rewrite trimStart_snoc by exact H. now rewrite rev_app_distr.
Qed.

Lemma trimEnd_fixed_app (x y : jsstring) :
  y <> [] -> trimEnd y = y -> trimEnd (x ++ y) = x ++ y.
Proof.
  unfold trimEnd. intros Hy H.
  assert (H' : trimStart (rev y) = rev y).
  { rewrite <- H at 2. now rewrite rev_involutive. }
  rewrite rev_app_distr, trimStart_fixed_app, <- rev_app_distr, rev_involutive; auto.
  intros E. apply Hy. rewrite <- (rev_involutive y), E. reflexivity.
Qed.

Lemma trimEnd_idem (s : jsstring) : trimEnd (trimEnd s) = trimEnd s.
Proof. unfold trimEnd. now rewrite rev_involutive, trimStart_idem. Qed.

(** Cutting whitespace off the end leaves a whitespace-free start alone. *)
Lemma trimStart_trimEnd (s : jsstring) :
  trimStart s = s -> trimStart (trimEnd s) = trimEnd s.
Proof.
  destruct s as [|c s]; [reflexivity|]. intros H.
  apply trimStart_fixed_head in H.
  rewrite trimEnd_cons by exact H. simpl. now rewrite H.
Qed.

Lemma trim_idem (s : jsstring) : trim (trim s) = trim s.
Proof.
  unfold trim. rewrite (trimStart_trimEnd (trimStart s) (trimStart_idem s)).
  apply trimEnd_idem.
Qed.

(** A line [p ++ f] whose first unit is no whitespace and whose [f] does
    not end in whitespace is its own trim. *)
Lemma trim_fixed_app (c : N) (p f : jsstring) :
  isWhiteSpace c = false -> f <> [] -> trimEnd f = f ->
  trim ((c :: p) ++ f) = (c :: p) ++ f.
Proof.
  intros Hc Hf He. unfold trim. simpl app. simpl trimStart. rewrite Hc.
  change (c :: p ++ f) with ((c :: p) ++ f). now apply trimEnd_fixed_app.
Qed.

(** *** split and join *)

Lemma split_not_nil (sep : N) (s : jsstring) : split sep s <> [].
Proof.
  induction s as [|c s IH]; simpl; [discriminate|].
  destruct (c =? sep)%N; [discriminate|].
  destruct (split sep s); [congruence | discriminate].
Qed.

Lemma split_no_sep (sep : N) (l : jsstring) :
  ~ In sep l -> split sep l = [l].
Proof.
  induction l as [|c l IH]; simpl; intros H; [reflexivity|].
  destruct (N.eqb_spec c sep) as [->|_]; [exfalso; auto|].
  rewrite IH by auto. reflexivity.
Qed.

Lemma split_app_sep (sep : N) (l rest : jsstring) :
  ~ In sep l -> split sep (l ++ sep :: rest) = l :: split sep rest.
Proof.
  induction l as [|c l IH]; simpl; intros H.
  - now rewrite N.eqb_refl.
  - destruct (N.eqb_spec c sep) as [->|_]; [exfalso; auto|].
    rewrite IH by auto. reflexivity.
Qed.

Lemma split_join (sep : N) (parts : list jsstring) :
  parts <> [] -> Forall (fun l => ~ In sep l) parts ->
  split sep (join [sep] parts) = parts.
Proof.
  induction parts as [|p parts IH]; [congruence|]. intros _ H.
  inversion H as [|? ? Hp Hrest]; subst.
  destruct parts as [|q parts].
  - simpl. now apply split_no_sep.
  - change (join [sep] (p :: q :: parts)) with (p ++ sep :: join [sep] (q :: parts)).
    rewrite split_app_sep by exact Hp. f_equal. apply IH; [discriminate | exact Hrest].
Qed.




(** *** JSON.stringify *)

Lemma quote_units_plain (s : jsstring) :
  forallb plain_unit s = true -> quote_units s = s.
Proof.
  induction s as [|c s IH]; simpl; [reflexivity|].
  intros H. apply andb_true_iff in H as [Hc Hs].
  unfold plain_unit in Hc.
  repeat (apply andb_true_iff in Hc as [Hc ?]).
  repeat match goal with H : negb _ = true |- _ => apply negb_true_iff in H end.
  match goal with H : isLeadingSurrogate c = false |- _ => rewrite H end.
  unfold quote_unit.
  assert ((c <? 32)%N = false) as -> by (apply N.ltb_ge; now apply N.leb_le).
  repeat match goal with H : _ = false |- _ => rewrite H; clear H end.
  repeat match goal with
  | |- context [(c =? ?k)%N] =>
      destruct (N.eqb_spec c k) as [->|_]; [discriminate|]
  end.
  simpl. now rewrite IH.
Qed.

Lemma JSON_stringify_plain (s : jsstring) :
  forallb plain_unit s = true -> JSON_stringify s = [0x22%N] ++ s ++ [0x22%N].
Proof. intros H. unfold JSON_stringify. now rewrite quote_units_plain. Qed.




(** *** Lists *)

Lemma filter_all_false {A} (f : A -> bool) (l : list A) :
  (forall x, In x l -> f x = false) -> filter f l = [].
Proof.
  induction l as [|a l IH]; intros H; simpl; [reflexivity|].
  rewrite (H a (or_introl eq_refl)). apply IH. intros x Hx. apply H. now right.
Qed.

Lemma filter_map_length {A} (f : A -> bool) (g : A -> A) (l : list A) :
  (forall x, In x l -> f (g x) = f x) ->
  length (filter f (map g l)) = length (filter f l).
Proof.
  induction l as [|a l IH]; intros H; simpl; [reflexivity|].
  rewrite (H a (or_introl eq_refl)).
  destruct (f a); simpl; rewrite IH; auto; intros x Hx; apply H; now right.
Qed.

Lemma find_first {A} (p : A -> bool) (l : list A) (m : A) :
  find p l = Some m
  <-> exists before after,
        l = before ++ m :: after /\ p m = true /\ forall x, In x before -> p x = false.
Proof.
  split.
  - induction l as [|a l IH]; simpl; [discriminate|].
    destruct (p a) eqn:Ea.
    + intros [= ->]. exists [], l. repeat split; [exact Ea | intros x []].
    + intros H. destruct (IH H) as (before & after & -> & Hm & Hb).
      exists (a :: before), after. repeat split; [exact Hm|].
      intros x [<- | Hx]; auto.
  - intros (before & after & -> & Hm & Hb).
    induction before as [|a before IH]; simpl.
    + now rewrite Hm.
    + rewrite (Hb a) by now left. apply IH. intros x Hx. apply Hb. now right.
Qed.

Lemma find_nothing {A} (p : A -> bool) (l : list A) :
  find p l = None <-> forall x, In x l -> p x = false.
Proof.
  split; [intros H x; now apply find_none|].
  induction l as [|a l IH]; simpl; intros H; [reflexivity|].
  rewrite (H a) by now left. apply IH. intros x Hx. apply H. now right.
Qed.

(** When the matcher refuses no name, the filter of line 44 keeps the
    names the rules do not match. *)
Lemma unignored_Some (test : jsstring -> option bool) (files kept : list jsstring) :
  Complete.unignored test files = Some kept ->
  (forall f, In f files -> test f <> None)
  /\ kept = filter (fun f => match test f with Some true => false | _ => true end) files.
Proof.
  revert kept. induction files as [|f files IH]; simpl; intros kept H.
  - injection H as <-. split; [intros f [] | reflexivity].
  - destruct (test f) as [ignored|] eqn:Ef; [|discriminate].
    destruct (Complete.unignored test files) as [kept'|]; [|discriminate].
    injection H as <-. destruct (IH kept' eq_refl) as (Hall & ->).
    split; [intros x [<- | Hx]; [congruence | auto]|].
    now destruct ignored.
Qed.

Lemma unignored_total (test : jsstring -> option bool) (files : list jsstring) :
  (forall f, In f files -> test f <> None) ->
  exists kept, Complete.unignored test files = Some kept.
Proof.
  induction files as [|f files IH]; simpl; intros H; [eauto|].
  destruct (test f) as [ignored|] eqn:Ef; [|now exfalso; apply (H f); auto].
  destruct IH as (kept & ->); [intros x Hx; apply H; now right | eauto].
Qed.

Lemma unignored_all (test : jsstring -> option bool) (files : list jsstring) :
  (forall f, In f files -> test f = Some true) ->
  Complete.unignored test files = Some [].
Proof.
  induction files as [|f files IH]; simpl; intros H; [reflexivity|].
  rewrite (H f) by now left. rewrite IH; [reflexivity|]. intros x Hx. apply H. now right.
Qed.

Lemma NoDup_snoc {A} (l : list A) (a : A) : NoDup l -> ~ In a l -> NoDup (l ++ [a]).
Proof.
  induction l as [|x l IH]; simpl; intros Hnd Hin.
  - repeat constructor. intros [].
  - inversion Hnd as [|? ? Hx Hl]; subst. constructor.
    + intros H. apply in_app_or in H as [H|[H|[]]]; [auto | subst; auto].
    + apply IH; auto.
Qed.

Lemma pages_step (n : nat) : 0 < n -> (n + 99) / 100 = S ((n - 100 + 99) / 100).
Proof.
  intros Hn. destruct (Nat.le_gt_cases n 100) as [Hle|Hgt].
  - replace (n - 100) with 0 by lia. rewrite (Nat.div_small (0 + 99) 100) by lia.
    symmetry. apply (Nat.div_unique (n + 99) 100 1 (n - 1)); lia.
  - replace (n + 99) with ((n - 100 + 99) + 1 * 100) by lia.
    rewrite Nat.div_add by lia. lia.
Qed.

(** ** Running the monad *)

Lemma add_events_nil (w : World) : add_events w [] = w.
Proof. destruct w. unfold add_events. simpl. now rewrite app_nil_r. Qed.

Lemma add_events_app (w : World) (e1 e2 : list Event) :
  add_events (add_events w e1) e2 = add_events w (e1 ++ e2).
Proof. unfold add_events. simpl. now rewrite app_assoc. Qed.

(** Two worlds with the same comments and the same calls. *)
Ltac world_eq :=
  unfold add_events; simpl; repeat rewrite <- app_assoc; simpl; reflexivity.


Lemma bind_Ret {A B} (m : M A) (k : A -> M B) (w w' : World) (a : A) :
  m w = (Ret a, w') -> bind m k w = k a w'.
Proof. intros H. unfold bind. now rewrite H. Qed.

Lemma emit_run (e : Event) (w : World) : emit e w = (Ret tt, add_events w [e]).
Proof. reflexivity. Qed.

Lemma pulls_listFiles_run (env : Env) (per_page page : nat) (w : World) :
  pulls_listFiles env per_page page w
  = (Ret (listFiles env per_page page), add_events w [ListFiles per_page page]).
Proof. reflexivity. Qed.

Lemma issues_listComments_run (w : World) :
  issues_listComments w = (Ret (first_page (comments w)), add_events w [ListComments]).
Proof. reflexivity. Qed.

Lemma issues_updateComment_run (i : nat) (b : jsstring) (w : World) :
  issues_updateComment i b w
  = (Ret tt, mkWorld (map (set_body i b) (comments w)) (trace w ++ [UpdateComment i b])).
Proof. reflexivity. Qed.

Lemma issues_createComment_run (b : jsstring) (w : World) :
  issues_createComment b w
  = (Ret tt, mkWorld (comments w ++ [mkComment (fresh_id (comments w)) b])
               (trace w ++ [CreateComment b])).
Proof. reflexivity. Qed.

(** ** The collector *)

(** part_000: the pages before the first empty one, minus the removed
    entries. *)
Lemma complete_collects_every_page (env : Env) (k fuel : nat) (w : World) :
  (forall i, 1 <= i <= k -> listFiles env 100 i <> []) ->
  listFiles env 100 (S k) = [] ->
  k < fuel ->
  Complete.getAllChangedFiles env fuel w
  = (Ret (map filename
            (filter not_removed (concat (map (listFiles env 100) (seq 1 k))))),
     add_events w (map (ListFiles 100) (seq 1 (S k)))).
Proof.
  unfold Complete.getAllChangedFiles.
  assert (G : forall k page acc fuel w,
    (forall i, page <= i < page + k -> listFiles env 100 i <> []) ->
    listFiles env 100 (page + k) = [] ->
    k < fuel ->
    Complete.getAllChangedFiles_loop env fuel page acc w
    = (Ret (acc ++ map filename
              (filter not_removed (concat (map (listFiles env 100) (seq page k))))),
       add_events w (map (ListFiles 100) (seq page (S k))))).
  { clear. induction k as [|k IH]; intros page acc fuel w Hne Hend Hfuel;
      (destruct fuel as [|fuel]; [lia|]); simpl Complete.getAllChangedFiles_loop;
      rewrite (bind_Ret _ _ _ _ _ (pulls_listFiles_run env 100 page w)).
    - rewrite Nat.add_0_r in Hend. rewrite Hend. simpl. now rewrite app_nil_r.
    - destruct (listFiles env 100 page) as [|f fs] eqn:Epage.
      + exfalso. apply (Hne page); [lia | exact Epage].
      + cbn [length Nat.eqb].
        rewrite IH.
        * rewrite add_events_app. f_equal. cbn [seq map concat].
          rewrite Epage, filter_app, map_app, app_assoc. reflexivity.
        * intros i Hi. apply Hne. lia.
        * rewrite <- Hend. f_equal. lia.
        * lia. }
  intros Hne Hend Hfuel. apply (G k 1 [] fuel w); auto.
  intros i Hi. apply Hne. lia.
Qed.

(** main.ts: the pages before the first empty one, every entry. *)
Lemma minimal_collects_every_page (env : Env) (k fuel : nat)
    (w : World) :
  (forall i, 1 <= i <= k -> listFiles env 100 i <> []) ->
  listFiles env 100 (S k) = [] ->
  k < fuel ->
  Minimal.getAllChangedFiles env fuel w
  = (Ret (map filename (concat (map (listFiles env 100) (seq 1 k)))),
     add_events w (map (ListFiles 100) (seq 1 (S k)))).
Proof.
  unfold Minimal.getAllChangedFiles.
  assert (G : forall k page acc fuel w,
    (forall i, page <= i < page + k -> listFiles env 100 i <> []) ->
    listFiles env 100 (page + k) = [] ->
    k < fuel ->
    Minimal.getAllChangedFiles_loop env fuel page acc w
    = (Ret (acc ++ map filename (concat (map (listFiles env 100) (seq page k)))),
       add_events w (map (ListFiles 100) (seq page (S k))))).
  { clear. induction k as [|k IH]; intros page acc fuel w Hne Hend Hfuel;
      (destruct fuel as [|fuel]; [lia|]); simpl Minimal.getAllChangedFiles_loop;
      rewrite (bind_Ret _ _ _ _ _ (pulls_listFiles_run env 100 page w)).
    - rewrite Nat.add_0_r in Hend. rewrite Hend. simpl. now rewrite app_nil_r.
    - destruct (listFiles env 100 page) as [|f fs] eqn:Epage.
      + exfalso. apply (Hne page); [lia | exact Epage].
      + cbn [length Nat.eqb].
        rewrite IH.
        * rewrite add_events_app. f_equal. cbn [seq map concat].
          rewrite Epage, map_app, app_assoc. reflexivity.
        * intros i Hi. apply Hne. lia.
        * rewrite <- Hend. f_equal. lia.
        * lia. }
  intros Hne Hend Hfuel. apply (G k 1 [] fuel w); auto.
  intros i Hi. apply Hne. lia.
Qed.

(** C7.  In both files, whatever the endpoint answers: if pages 1 to k are
    not empty and page k+1 is, then with more than k turns of fuel the
    collector asks for exactly the pages 1, 2, ..., k+1, each of size 100,
    and returns the file names of pages 1 to k in the order they were
    served (in part_000 without the removed entries, which are dropped
    page by page).  Nothing of a later page is left out, and no page
    after the first empty one is asked for. *)
Theorem collector_collects_every_page (v : Variant) (env : Env) (k fuel : nat)
    (w : World) :
  (forall i, 1 <= i <= k -> listFiles env 100 i <> []) ->
  listFiles env 100 (S k) = [] ->
  k < fuel ->
  getAllChangedFiles_of v env fuel w
  = (Ret (collected v (concat (map (listFiles env 100) (seq 1 k)))),
     add_events w (map (ListFiles 100) (seq 1 (S k)))).
Proof.
  intros Hne Hend Hfuel. destruct v; cbn [getAllChangedFiles_of collected].
  - now apply complete_collects_every_page.
  - now apply minimal_collects_every_page.
Qed.

(** 150 files at page size 100: pages 1 and 2 are fetched and kept, page 3
    comes back empty and ends the loop. *)
Lemma collector_collects_every_page_witness :
  getAllChangedFiles_of complete (demo_env pr_150_files check_passes) 3 no_comments
  = (Ret (map filename pr_150_files),
     add_events no_comments [ListFiles 100 1; ListFiles 100 2; ListFiles 100 3]).
Proof.
  eapply eq_trans.
  - apply (collector_collects_every_page complete
             (demo_env pr_150_files check_passes) 2 3 no_comments).
    + intros i Hi. assert (Ei : i = 1 \/ i = 2) by lia.
      destruct Ei as [-> | ->]; vm_compute; discriminate.
    + vm_compute. reflexivity.
    + lia.
  - vm_compute. reflexivity.
Defined.

Lemma getAllChangedFiles_loop_paged (env : Env) (fuel : nat) :
  forall (rest : list PullFile) (page : nat) (acc : list jsstring) (w : World),
  (forall q, listFiles env 100 (page + q) = firstn 100 (skipn (100 * q) rest)) ->
  length rest < fuel ->
  Complete.getAllChangedFiles_loop env fuel page acc w
  = (Ret (acc ++ map filename (filter not_removed rest)),
     add_events w (map (ListFiles 100) (seq page (S ((length rest + 99) / 100))))).
Proof.
  induction fuel as [|fuel IH]; intros rest page acc w Hpages Hfuel; [lia|].
  simpl Complete.getAllChangedFiles_loop.
  rewrite (bind_Ret _ _ _ _ _ (pulls_listFiles_run env 100 page w)).
  pose proof (Hpages 0) as H0. rewrite Nat.add_0_r, Nat.mul_0_r in H0. cbn [skipn] in H0.
  destruct rest as [|r rest].
  - rewrite H0. simpl. now rewrite app_nil_r.
  - rewrite H0. destruct (firstn 100 (r :: rest)) as [|f fs] eqn:Ef.
    { rewrite firstn_cons in Ef. discriminate. }
    cbn [length Nat.eqb]. rewrite <- Ef.
    rewrite (IH (skipn 100 (r :: rest)) (S page)).
    + rewrite add_events_app. f_equal.
      * f_equal. change (fun f : PullFile => negb (str_eqb (status f) (u "removed")))
          with not_removed.
        rewrite <- app_assoc, <- map_app, <- filter_app, firstn_skipn. reflexivity.
      * rewrite length_skipn.
        change (S (length rest)) with (length (r :: rest)).
        rewrite (pages_step (length (r :: rest))) by (simpl; lia). reflexivity.
    + intros q. replace (S page + q) with (page + S q) by lia.
      rewrite Hpages, skipn_skipn. do 2 f_equal. lia.
    + rewrite length_skipn. simpl in *. lia.
Qed.

Lemma minimal_getAllChangedFiles_loop_paged (env : Env) (fuel : nat) :
  forall (rest : list PullFile) (page : nat) (acc : list jsstring) (w : World),
  (forall q, listFiles env 100 (page + q) = firstn 100 (skipn (100 * q) rest)) ->
  length rest < fuel ->
  Minimal.getAllChangedFiles_loop env fuel page acc w
  = (Ret (acc ++ map filename rest),
     add_events w (map (ListFiles 100) (seq page (S ((length rest + 99) / 100))))).
Proof.
  induction fuel as [|fuel IH]; intros rest page acc w Hpages Hfuel; [lia|].
  simpl Minimal.getAllChangedFiles_loop.
  rewrite (bind_Ret _ _ _ _ _ (pulls_listFiles_run env 100 page w)).
  pose proof (Hpages 0) as H0. rewrite Nat.add_0_r, Nat.mul_0_r in H0. cbn [skipn] in H0.
  destruct rest as [|r rest].
  - rewrite H0. simpl. now rewrite app_nil_r.
  - rewrite H0. destruct (firstn 100 (r :: rest)) as [|f fs] eqn:Ef.
    { rewrite firstn_cons in Ef. discriminate. }
    cbn [length Nat.eqb]. rewrite <- Ef.
    rewrite (IH (skipn 100 (r :: rest)) (S page)).
    + rewrite add_events_app. f_equal.
      * f_equal. rewrite <- app_assoc, <- map_app, firstn_skipn. reflexivity.
      * rewrite length_skipn.
        change (S (length rest)) with (length (r :: rest)).
        rewrite (pages_step (length (r :: rest))) by (simpl; lia). reflexivity.
    + intros q. replace (S page + q) with (page + S q) by lia.
      rewrite Hpages, skipn_skipn. do 2 f_equal. lia.
    + rewrite length_skipn. simpl in *. lia.
Qed.

(** In both files every finite file list served in pages of 100 is
    collected whole, in the order of the list, once the fuel exceeds its
    length: the loop ends. *)
Lemma getAllChangedFiles_of_paged_list (v : Variant) (env : Env)
    (files : list PullFile) (fuel : nat) (w : World) :
  (forall page, listFiles env 100 page = paged files 100 page) ->
  length files < fuel ->
  getAllChangedFiles_of v env fuel w
  = (Ret (collected v files),
     add_events w (map (ListFiles 100) (seq 1 (S ((length files + 99) / 100))))).
Proof.
  intros Hpaged Hfuel.
  assert (Hq : forall q, listFiles env 100 (1 + q) = firstn 100 (skipn (100 * q) files)).
  { intros q. rewrite Hpaged. unfold paged. do 2 f_equal. lia. }
  destruct v; cbn [getAllChangedFiles_of collected].
  - unfold Complete.getAllChangedFiles.
    now rewrite (getAllChangedFiles_loop_paged env fuel files 1 [] w Hq Hfuel).
  - unfold Minimal.getAllChangedFiles.
    now rewrite (minimal_getAllChangedFiles_loop_paged env fuel files 1 [] w Hq Hfuel).
Qed.

(** The collector only lists files: the comments stay as they are, and
    what it returns does not depend on them. *)
Lemma getAllChangedFiles_loop_frame (env : Env) (fuel page : nat) (acc : list jsstring) :
  exists r evs, Forall collector_event evs
    /\ forall w, Complete.getAllChangedFiles_loop env fuel page acc w = (r, add_events w evs).
Proof.
  revert page acc. induction fuel as [|fuel IH]; intros page acc.
  - exists OutOfFuel, []. split; [constructor|]. intros w. now rewrite add_events_nil.
  - simpl. destruct (listFiles env 100 page) as [|f fs] eqn:Epage.
    + exists (Ret acc), [ListFiles 100 page]. split; [repeat constructor|].
      intros w. rewrite (bind_Ret _ _ _ _ _ (pulls_listFiles_run env 100 page w)).
      now rewrite Epage.
    + destruct (IH (S page) (acc ++ map filename
          (filter (fun f => negb (str_eqb (status f) (u "removed"))) (f :: fs))))
        as (r & evs & Hevs & Hrun).
      exists r, (ListFiles 100 page :: evs). split; [constructor; [exact I | exact Hevs]|].
      intros w. rewrite (bind_Ret _ _ _ _ _ (pulls_listFiles_run env 100 page w)).
      rewrite Epage. cbn [length Nat.eqb]. rewrite Hrun, add_events_app. reflexivity.
Qed.

Lemma changeSet_frame (env : Env) (fuel : nat) :
  exists r evs, Forall collector_event evs
    /\ forall w, Complete.changeSet env fuel w = (r, add_events w evs).
Proof.
  destruct (getAllChangedFiles_loop_frame env fuel 1 []) as (r & evs & Hevs & Hrun).
  unfold Complete.changeSet, Complete.getAllChangedFiles.
  destruct r as [names| e |].
  - set (path := getInput env (u "prettier-ignore")).
    set (kept := filter (test_extension Complete.extensions) names).
    destruct (existsSync env path) eqn:Eex.
    + destruct (readFileSync env path) as [content|] eqn:Erd.
      * exists (match Complete.unignored (ignores env content) kept with
                | Some left_in => Ret left_in
                | None => Throw (u "RangeError: path should be a `path.relative()`d string")
                end),
          (evs ++ [ExistsSync path; ReadFileSync path]).
        split; [apply Forall_app; split; [exact Hevs | repeat constructor]|].
        intros w. rewrite (bind_Ret _ _ _ _ _ (Hrun w)).
        unfold fs_existsSync, fs_readFileSync, bind, emit, ret, throw. simpl.
        fold path. rewrite Eex. simpl. fold path. rewrite Erd.
        subst kept.
        destruct (Complete.unignored _ _); world_eq.
      * exists (Throw (u "ENOENT: no such file or directory")),
          (evs ++ [ExistsSync path; ReadFileSync path]).
        split; [apply Forall_app; split; [exact Hevs | repeat constructor]|].
        intros w. rewrite (bind_Ret _ _ _ _ _ (Hrun w)).
        unfold fs_existsSync, fs_readFileSync, bind, emit, ret, throw. simpl.
        fold path. rewrite Eex. simpl. fold path. rewrite Erd.
        subst kept. world_eq.
    + exists (Ret kept), (evs ++ [ExistsSync path]).
      split; [apply Forall_app; split; [exact Hevs | repeat constructor]|].
      intros w. rewrite (bind_Ret _ _ _ _ _ (Hrun w)).
      unfold fs_existsSync, bind, emit, ret. simpl. fold path. rewrite Eex.
      subst kept. world_eq.
  - exists (Throw e), evs. split; [exact Hevs|]. intros w. unfold bind. now rewrite Hrun.
  - exists OutOfFuel, evs. split; [exact Hevs|]. intros w. unfold bind. now rewrite Hrun.
Qed.

Lemma minimal_changeSet_frame (env : Env) (fuel : nat) :
  exists r evs, Forall collector_event evs
    /\ forall w, Minimal.changeSet env fuel w = (r, add_events w evs).
Proof.
  assert (G : forall fuel page acc, exists r evs, Forall collector_event evs
    /\ forall w, Minimal.getAllChangedFiles_loop env fuel page acc w = (r, add_events w evs)).
  { clear. induction fuel as [|fuel IH]; intros page acc.
    - exists OutOfFuel, []. split; [constructor|]. intros w. now rewrite add_events_nil.
    - simpl. destruct (listFiles env 100 page) as [|f fs] eqn:Epage.
      + exists (Ret acc), [ListFiles 100 page]. split; [repeat constructor|].
        intros w. rewrite (bind_Ret _ _ _ _ _ (pulls_listFiles_run env 100 page w)).
        now rewrite Epage.
      + destruct (IH (S page) (acc ++ map filename (f :: fs))) as (r & evs & Hevs & Hrun).
        exists r, (ListFiles 100 page :: evs). split; [constructor; [exact I | exact Hevs]|].
        intros w. rewrite (bind_Ret _ _ _ _ _ (pulls_listFiles_run env 100 page w)).
        rewrite Epage. cbn [length Nat.eqb]. rewrite Hrun, add_events_app. reflexivity. }
  destruct (G fuel 1 []) as (r & evs & Hevs & Hrun).
  unfold Minimal.changeSet, Minimal.getAllChangedFiles.
  destruct r as [names| e |].
  - exists (Ret (filter (test_extension Minimal.extensions) names)), evs.
    split; [exact Hevs|]. intros w. now rewrite (bind_Ret _ _ _ _ _ (Hrun w)).
  - exists (Throw e), evs. split; [exact Hevs|]. intros w. unfold bind. now rewrite Hrun.
  - exists OutOfFuel, evs. split; [exact Hevs|]. intros w. unfold bind. now rewrite Hrun.
Qed.

Lemma changeSet_of_frame (v : Variant) (env : Env) (fuel : nat) :
  exists r evs, Forall collector_event evs
    /\ forall w, changeSet_of v env fuel w = (r, add_events w evs).
Proof. destruct v; [apply changeSet_frame | apply minimal_changeSet_frame]. Qed.

(** So the change set of such a pull request is always reached, unless
    (part_000) the ignore file exists and cannot be read, or the matcher
    refuses a name. *)
Lemma changeSet_of_paged_list (v : Variant) (env : Env) (files : list PullFile)
    (fuel : nat) (w : World) :
  (forall page, listFiles env 100 page = paged files 100 page) ->
  length files < fuel ->
  (v = complete -> ignore_file_readable env) ->
  (v = complete -> forall content f, ignores env content f <> None) ->
  exists cs w1, changeSet_of v env fuel w = (Ret cs, w1).
Proof.
  intros Hpaged Hfuel Hread Hmatch.
  pose proof (getAllChangedFiles_of_paged_list v env files fuel w Hpaged Hfuel) as Hcol.
  destruct v; cbn [getAllChangedFiles_of changeSet_of] in *.
  - specialize (Hread eq_refl). unfold Complete.changeSet.
    rewrite (bind_Ret _ _ _ _ _ Hcol).
    unfold ignore_file_readable in Hread.
    unfold fs_existsSync, fs_readFileSync, bind, emit, ret, throw. simpl.
    destruct (existsSync env _) eqn:Eex.
    + destruct (readFileSync env _) as [content|] eqn:Erd; [|now exfalso; apply Hread].
      match goal with
      | |- context [Complete.unignored ?t ?l] =>
          destruct (unignored_total t l) as (kept & ->);
            [intros f _; now apply Hmatch | eauto]
      end.
    + eauto.
  - unfold Minimal.changeSet. rewrite (bind_Ret _ _ _ _ _ Hcol). unfold ret. eauto.
Qed.

(** How part_000 comes to a change set: the collected names pass the
    extension test, and then either there is no ignore file, or it was
    read and the matcher refused none of the names. *)
Lemma changeSet_Ret (env : Env) (fuel : nat) (w w1 : World) (cs : list jsstring) :
  Complete.changeSet env fuel w = (Ret cs, w1) ->
  exists names w0,
    Complete.getAllChangedFiles env fuel w = (Ret names, w0)
    /\ ((existsSync env (getInput env (u "prettier-ignore")) = false
         /\ cs = filter (test_extension Complete.extensions) names)
        \/ (existsSync env (getInput env (u "prettier-ignore")) = true
            /\ exists content,
                 readFileSync env (getInput env (u "prettier-ignore")) = Some content
                 /\ Complete.unignored (ignores env content)
                      (filter (test_extension Complete.extensions) names)
                    = Some cs)).
Proof.
  intros H. unfold Complete.changeSet in H.
  destruct (Complete.getAllChangedFiles env fuel w) as [[names| e |] w0] eqn:E;
    unfold bind in H; rewrite E in H; try discriminate.
  exists names, w0. split; [reflexivity|].
  unfold fs_existsSync, fs_readFileSync, bind, emit, ret, throw in H. simpl in H.
  destruct (existsSync env _); simpl in H.
  - right. split; [reflexivity|].
    destruct (readFileSync env _) as [content|]; simpl in H; [|discriminate].
    exists content. split; [reflexivity|].
    destruct (Complete.unignored _ _) as [kept|]; cbn beta in H; [|discriminate].
    now injection H as <- _.
  - left. split; [reflexivity|]. now injection H as <- _.
Qed.

(** ** Removed files *)

Lemma getAllChangedFiles_loop_sources (env : Env) (fuel page : nat)
    (acc names : list jsstring) (w w0 : World) (P : jsstring -> Prop) :
  (forall p e, In e (listFiles env 100 p) -> not_removed e = true -> P (filename e)) ->
  (forall f, In f acc -> P f) ->
  Complete.getAllChangedFiles_loop env fuel page acc w = (Ret names, w0) ->
  forall f, In f names -> P f.
Proof.
  intros HP. revert page acc w. induction fuel as [|fuel IH]; intros page acc w Hacc H.
  - discriminate.
  - simpl in H. rewrite (bind_Ret _ _ _ _ _ (pulls_listFiles_run env 100 page w)) in H.
    destruct (listFiles env 100 page) as [|e es] eqn:Epage.
    + injection H as <- _. exact Hacc.
    + cbn [length Nat.eqb] in H. eapply IH; [|exact H].
      intros f Hf. apply in_app_or in Hf as [Hf|Hf]; [now apply Hacc|].
      apply in_map_iff in Hf as (x & <- & Hx). apply filter_In in Hx as [Hx Hnr].
      apply (HP page x); [now rewrite Epage | exact Hnr].
Qed.

Lemma not_removed_status (e : PullFile) :
  not_removed e = true <-> status e <> u "removed".
Proof.
  unfold not_removed. rewrite negb_true_iff. split.
  - intros H E. apply str_eqb_eq in E. congruence.
  - intros H. destruct (str_eqb (status e) (u "removed")) eqn:E; [|reflexivity].
    apply str_eqb_eq in E. contradiction.
Qed.

(** part_000 does what C5 says.  Every name the collector returns, hence
    every candidate name of the change set (the extension and ignore
    filters only take names away), is the name of an entry of some page
    whose status is not [removed]: an entry with status [removed] brings
    no name into the change set. *)
Lemma complete_leaves_removed_entries_out (env : Env) (fuel : nat) (w w1 : World)
    (cs : list jsstring) :
  Complete.changeSet env fuel w = (Ret cs, w1) ->
  exists names w0,
    Complete.getAllChangedFiles env fuel w = (Ret names, w0)
    /\ (forall f, In f names ->
          exists page e, In e (listFiles env 100 page)
                         /\ status e <> u "removed" /\ filename e = f)
    /\ (forall f, In f cs -> In f names)
    /\ (forall f,
          (forall page e, In e (listFiles env 100 page) -> filename e = f ->
                          status e = u "removed") ->
          ~ In f names /\ ~ In f cs).
Proof.
  intros H.
  destruct (changeSet_Ret env fuel w w1 cs H) as (names & w0 & E & Hcs).
  exists names, w0. split; [exact E|].
  assert (Hsrc : forall f, In f names ->
            exists page e, In e (listFiles env 100 page)
                           /\ status e <> u "removed" /\ filename e = f).
  { apply (getAllChangedFiles_loop_sources env fuel 1 [] names w w0); [| intros f [] | exact E].
    intros p e He Hnr. exists p, e. split; [exact He|]. split; [|reflexivity].
    now apply not_removed_status. }
  assert (Hsub : forall f, In f cs -> In f names).
  { intros f Hf. destruct Hcs as [(_ & ->) | (_ & content & _ & Hkept)].
    + now apply filter_In in Hf as [Hf _].
    + apply unignored_Some in Hkept as (_ & ->).
      apply filter_In in Hf as [Hf _]. now apply filter_In in Hf as [Hf _]. }
  split; [exact Hsrc|]. split; [exact Hsub|].
  intros f Hall.
  assert (Hn : ~ In f names).
  { intros Hf. destruct (Hsrc f Hf) as (page & e & He & Hst & Hname).
    apply Hst. now apply (Hall page e). }
  split; [exact Hn|]. intros Hf. apply Hn. now apply Hsub.
Qed.

(** C5, at the failing input.  A pull request that changed [a.ts] and
    [c d.md], added an image and removed [gone.ts]: main.ts collects the
    name of the removed entry, keeps it in the change set and hands it
    to the check; part_000 leaves it out. *)
Theorem main_ts_checks_removed_file :
  let env := demo_env pr_files check_passes in
  In (mkPullFile (u "gone.ts") (u "removed")) (listFiles env 100 1)
  /\ fst (Minimal.getAllChangedFiles env 3 no_comments)
     = Ret [u "a.ts"; u "b.png"; u "c d.md"; u "gone.ts"]
  /\ fst (Minimal.changeSet env 3 no_comments) = Ret [u "a.ts"; u "c d.md"; u "gone.ts"]
  /\ In (Exec (u "npx prettier --check a.ts c d.md gone.ts"))
        (trace (snd (Minimal.run env 3 no_comments)))
  /\ fst (Complete.changeSet env 3 no_comments) = Ret [u "a.ts"; u "c d.md"].
Proof.
  repeat split; try (vm_compute; reflexivity).
  - vm_compute. auto 10.
  - vm_compute. auto 10.
Qed.

(** ** The remediation command *)

Lemma warn_line_no_LF (f : jsstring) : ~ In LF f -> ~ In LF (warn_line f).
Proof.
  intros H Hin. unfold warn_line in Hin. apply in_app_or in Hin as [Hin|Hin]; [|auto].
  vm_compute in Hin. intuition discriminate.
Qed.

Lemma strip_warn_line (f : jsstring) :
  per_file_name f -> strip_warn (warn_line f) = f.
Proof.
  intros (Hne & Hend & _). unfold strip_warn, warn_line.
  change (u "[warn] ") with (0x5B%N :: u "warn] ").
  rewrite trim_fixed_app by (reflexivity || assumption).
  apply (replace_first_prefix (0x5B%N :: u "warn] ")).
Qed.

Lemma strip_warn_lines (names : list jsstring) :
  Forall per_file_name names -> map strip_warn (map warn_line names) = names.
Proof.
  intros Hnames. rewrite map_map. rewrite <- (map_id names) at 2.
  apply map_ext_in. intros f Hf. apply strip_warn_line.
  rewrite Forall_forall in Hnames. now apply Hnames.
Qed.

Lemma warn_lines_no_LF (names : list jsstring) :
  Forall per_file_name names -> Forall (fun l => ~ In LF l) (map warn_line names).
Proof.
  intros Hnames. rewrite Forall_map. eapply Forall_impl; [|exact Hnames].
  intros f (_ & _ & H). now apply warn_line_no_LF.
Qed.

(** part_000, lines 86-89: the last line goes. *)
Lemma offendingFiles_footer (prettierOutput : jsstring) (names : list jsstring)
    (footer : jsstring) :
  trim prettierOutput = join nl (map warn_line names ++ [footer]) ->
  Forall per_file_name names ->
  ~ In LF footer ->
  Complete.offendingFiles prettierOutput = names.
Proof.
  intros Htext Hnames Hfooter. unfold Complete.offendingFiles.
  rewrite Htext. unfold nl. rewrite split_join.
  - rewrite removelast_last. now apply strip_warn_lines.
  - destruct (map warn_line names); discriminate.
  - apply Forall_app. split; [now apply warn_lines_no_LF | now constructor].
Qed.

(** main.ts, lines 69-72: the first and the last line go. *)
Lemma minimal_prettierCommand_framed (PRETTIER_OUTPUT header footer : jsstring)
    (names : list jsstring) :
  trim PRETTIER_OUTPUT = join nl (header :: map warn_line names ++ [footer]) ->
  Forall per_file_name names ->
  ~ In LF header ->
  ~ In LF footer ->
  Minimal.prettierCommand PRETTIER_OUTPUT
  = u "npx prettier --write " ++ join (u " ") names.
Proof.
  intros Htext Hnames Hheader Hfooter. unfold Minimal.prettierCommand.
  rewrite Htext. unfold nl. rewrite split_join.
  - cbn [tl]. rewrite removelast_last. now rewrite strip_warn_lines.
  - discriminate.
  - constructor; [exact Hheader|].
    apply Forall_app. split; [now apply warn_lines_no_LF | now constructor].
Qed.

(** C2 (amended).  When the diagnostic text is N per-file warning lines
    framed by the lines the code throws away (in part_000 one footer line
    after them; in main.ts one header line before and one footer line
    after them), the remediation command is the tool in write mode
    followed by exactly the N file names, in order, separated by single
    spaces; part_000 wraps each name in double quotes with
    [JSON.stringify]. *)
Theorem remediation_command_names_the_files (v : Variant)
    (text header footer : jsstring) (names : list jsstring) :
  trim text = join nl (diagnostic_lines v header names footer) ->
  Forall per_file_name names ->
  ~ In LF header ->
  ~ In LF footer ->
  prettierCommand_of v text
  = u "npx prettier --write " ++ join (u " ") (map (argument_of v) names)
  /\ length (map (argument_of v) names) = length names
  /\ (v = complete ->
      Complete.offendingFiles text = names
      /\ Forall (fun arg => exists f, In f names
                             /\ arg = [0x22%N] ++ quote_units f ++ [0x22%N])
           (map (argument_of v) names)).
Proof.
  intros Htext Hnames Hheader Hfooter. split; [|split].
  - destruct v; cbn [prettierCommand_of diagnostic_lines argument_of] in *.
    + unfold Complete.prettierCommand.
      now rewrite (offendingFiles_footer _ _ _ Htext Hnames Hfooter).
    + rewrite map_id.
      now apply (minimal_prettierCommand_framed text header footer names).
  - apply length_map.
  - intros ->. cbn [diagnostic_lines argument_of] in *. split.
    + now apply (offendingFiles_footer _ _ _ Htext Hnames Hfooter).
    + rewrite Forall_map, Forall_forall. intros f Hf. now exists f.
Qed.

Lemma remediation_command_names_the_files_witness :
  (prettierCommand_of complete stderr_two_files
   = u "npx prettier --write "
     ++ join (u " ") (map JSON_stringify [u "a.ts"; u "c d.md"]))
  /\ (prettierCommand_of minimal output_with_header
      = u "npx prettier --write " ++ join (u " ") [u "a.ts"; u "c d.md"]).
Proof.
  split.
  - apply (remediation_command_names_the_files complete stderr_two_files []
             (u "[warn] Code style issues found in 2 files. Run Prettier with --write to fix.")
             [u "a.ts"; u "c d.md"]).
    + vm_compute. reflexivity.
    + repeat constructor; vm_compute; intuition discriminate.
    + intros [].
    + vm_compute. intuition discriminate.
  - generalize (remediation_command_names_the_files minimal output_with_header
             (u "Checking formatting...")
             (u "[warn] Code style issues found in 2 files. Run Prettier with --write to fix.")
             [u "a.ts"; u "c d.md"]).
    intros H. apply H.
    + vm_compute. reflexivity.
    + repeat constructor; vm_compute; intuition discriminate.
    + vm_compute. intuition discriminate.
    + vm_compute. intuition discriminate.
Defined.

(** C2, as stated, fails in both files.  In part_000, when the one line
    that names no file is a header ([Checking formatting...] then
    [[warn] a.ts]), the only line dropped is the last one: the command
    names the header and not the file.  In main.ts, with two per-file
    lines and the footer, the first per-file line is dropped with the
    footer: the command names one file of the two. *)
Lemma remediation_command_counterexample :
  (let text := u "Checking formatting..." ++ nl ++ u "[warn] a.ts" in
   trim text = join nl ([u "Checking formatting..."] ++ map warn_line [u "a.ts"])
   /\ Complete.offendingFiles text = [u "Checking formatting..."]
   /\ ~ In (u "a.ts") (Complete.offendingFiles text)
   /\ prettierCommand_of complete text
      <> u "npx prettier --write " ++ join (u " ") (map JSON_stringify [u "a.ts"]))
  /\ (trim stderr_two_files
      = join nl (map warn_line [u "a.ts"; u "c d.md"]
                 ++ [u "[warn] Code style issues found in 2 files. Run Prettier with --write to fix."])
      /\ prettierCommand_of minimal stderr_two_files = u "npx prettier --write c d.md").
Proof.
  split.
  - repeat split; try (vm_compute; reflexivity).
    + vm_compute. intuition discriminate.
    + vm_compute. discriminate.
  - split; vm_compute; reflexivity.
Qed.

(** ** What a run does, once the change set is known *)

(** *** part_000 *)

Lemma runExec_run (env : Env) (cmd : jsstring) (w : World) :
  Complete.runExec env cmd w = (Ret (exec_outcome env cmd), add_events w [Exec cmd]).
Proof.
  unfold Complete.runExec, exec_outcome, bind, emit, ret. simpl.
  destruct (exec env cmd) as [[out errout]|error]; reflexivity.
Qed.

Lemma run_empty (env : Env) (fuel : nat) (w w1 : World) :
  Complete.changeSet env fuel w = (Ret [], w1) ->
  Complete.run env fuel w
  = (Ret tt,
     mkWorld (updated_only Complete.passBody (comments w1))
       (trace w1 ++ ListComments :: update_calls Complete.passBody (comments w1))).
Proof.
  intros H. unfold Complete.run. rewrite (bind_Ret _ _ _ _ _ H). cbn [length Nat.eqb].
  rewrite (bind_Ret _ _ _ _ _ (issues_listComments_run w1)).
  unfold updated_only, update_calls. cbn [comments add_events].
  destruct (find is_marker (first_page (comments w1))) as [c|].
  - rewrite issues_updateComment_run. world_eq.
  - unfold ret. world_eq.
Qed.

Lemma run_nonempty (env : Env) (fuel : nat) (w w1 : World) (cs : list jsstring) :
  Complete.changeSet env fuel w = (Ret cs, w1) ->
  cs <> [] ->
  let child := exec_outcome env (Complete.checkCommand cs) in
  let newBody := Complete.composeBody child in
  Complete.run env fuel w
  = (Ret tt,
     mkWorld (upserted newBody (comments w1))
       (trace w1 ++ [Exec (Complete.checkCommand cs); ListComments;
                     upsert_call newBody (comments w1)] ++ verdict_calls child)).
Proof.
  intros H Hne child newBody. unfold Complete.run. rewrite (bind_Ret _ _ _ _ _ H).
  destruct cs as [|f cs]; [congruence|]. cbn [length Nat.eqb].
  rewrite (bind_Ret _ _ _ _ _ (runExec_run env _ w1)). fold child. fold newBody.
  rewrite (bind_Ret _ _ _ _ _ (issues_listComments_run _)).
  unfold upserted, upsert_call, verdict_calls. cbn [comments add_events].
  destruct (find is_marker (first_page (comments w1))) as [c|].
  - erewrite bind_Ret by apply issues_updateComment_run.
    destruct (Complete.err child); unfold setFailed, setOutput, console_log, bind, emit;
      world_eq.
  - erewrite bind_Ret by apply issues_createComment_run.
    destruct (Complete.err child); unfold setFailed, setOutput, console_log, bind, emit;
      world_eq.
Qed.

(** *** main.ts *)

Lemma minimal_run_empty (env : Env) (fuel : nat) (w w1 : World) :
  Minimal.changeSet env fuel w = (Ret [], w1) ->
  Minimal.run env fuel w
  = (Ret tt,
     mkWorld (updated_only Minimal.body0 (comments w1))
       (trace w1 ++ ListComments :: update_calls Minimal.body0 (comments w1))).
Proof.
  intros H. unfold Minimal.run. rewrite (bind_Ret _ _ _ _ _ H). cbn [length Nat.eqb].
  rewrite (bind_Ret _ _ _ _ _ (issues_listComments_run w1)).
  unfold updated_only, update_calls. cbn [comments add_events].
  destruct (find is_marker (first_page (comments w1))) as [c|].
  - rewrite issues_updateComment_run. world_eq.
  - unfold ret. world_eq.
Qed.

(** [execSync] throws on a non-zero exit: the run stops right after the
    child process, before the comments are listed, and no comment is
    written. *)
Lemma minimal_nonzero_exit_aborts (env : Env) (fuel : nat) (w w1 : World)
    (cs : list jsstring) (error : ExecException) :
  Minimal.changeSet env fuel w = (Ret cs, w1) ->
  cs <> [] ->
  exec env (Minimal.checkCommand cs) = inr error ->
  Minimal.run env fuel w
  = (Throw (u "Error: Command failed: " ++ Minimal.checkCommand cs),
     add_events w1 [Exec (Minimal.checkCommand cs)]).
Proof.
  intros H Hne Hexec. unfold Minimal.run. rewrite (bind_Ret _ _ _ _ _ H).
  destruct cs as [|f cs]; [congruence|]. cbn [length Nat.eqb].
  unfold Minimal.execSync, bind, emit, throw. simpl. rewrite Hexec. reflexivity.
Qed.

(** A check that exits with 0 and does not print the phrase: the pass
    message is upserted and a line is logged; no output is set. *)
Lemma minimal_run_pass (env : Env) (fuel : nat) (w w1 : World) (cs : list jsstring)
    (out errout : jsstring) :
  Minimal.changeSet env fuel w = (Ret cs, w1) ->
  cs <> [] ->
  exec env (Minimal.checkCommand cs) = inl (out, errout) ->
  includes out (u "Run Prettier to fix") = false ->
  Minimal.run env fuel w
  = (Ret tt,
     mkWorld (upserted Minimal.passBody (comments w1))
       (trace w1 ++ [Exec (Minimal.checkCommand cs); ListComments;
                     upsert_call Minimal.passBody (comments w1);
                     ConsoleLog (u "Prettier check passed")])).
Proof.
  intros H Hne Hexec Hno. unfold Minimal.run. rewrite (bind_Ret _ _ _ _ _ H).
  destruct cs as [|f cs]; [congruence|]. cbn [length Nat.eqb].
  unfold Minimal.execSync, bind at 1 2, emit. simpl. rewrite Hexec.
  unfold ret at 1. rewrite Hno. cbn [negb].
  unfold bind at 1. unfold ret at 1.
  rewrite (bind_Ret _ _ _ _ _ (issues_listComments_run _)).
  unfold upserted, upsert_call. cbn [comments add_events].
  destruct (find is_marker (first_page (comments w1))) as [c|].
  - erewrite bind_Ret by apply issues_updateComment_run.
    unfold console_log, emit. world_eq.
  - erewrite bind_Ret by apply issues_createComment_run.
    unfold console_log, emit. world_eq.
Qed.

(** The phrase is printed and the side file is missing: [readFileSync]
    throws before the comments are listed. *)
Lemma minimal_run_missing_file (env : Env) (fuel : nat) (w w1 : World)
    (cs : list jsstring) (out errout : jsstring) :
  Minimal.changeSet env fuel w = (Ret cs, w1) ->
  cs <> [] ->
  exec env (Minimal.checkCommand cs) = inl (out, errout) ->
  includes out (u "Run Prettier to fix") = true ->
  readFileSync env (u "prettier_output.txt") = None ->
  Minimal.run env fuel w
  = (Throw (u "ENOENT: no such file or directory"),
     add_events w1 [Exec (Minimal.checkCommand cs);
                    ReadFileSync (u "prettier_output.txt")]).
Proof.
  intros H Hne Hexec Hyes Hfile. unfold Minimal.run. rewrite (bind_Ret _ _ _ _ _ H).
  destruct cs as [|f cs]; [congruence|]. cbn [length Nat.eqb].
  unfold Minimal.execSync, bind at 1 2, emit. simpl. rewrite Hexec.
  unfold ret at 1. rewrite Hyes. cbn [negb].
  unfold fs_readFileSync, bind, emit, throw. simpl. rewrite Hfile. world_eq.
Qed.

(** A check that exits with 0 and prints the phrase: the failure body is
    built from the side file and upserted, then line 103 throws. *)
Lemma minimal_run_warnings (env : Env) (fuel : nat) (w w1 : World) (cs : list jsstring)
    (out errout text : jsstring) :
  Minimal.changeSet env fuel w = (Ret cs, w1) ->
  cs <> [] ->
  exec env (Minimal.checkCommand cs) = inl (out, errout) ->
  includes out (u "Run Prettier to fix") = true ->
  readFileSync env (u "prettier_output.txt") = Some text ->
  Minimal.run env fuel w
  = (Throw (u "ReferenceError: core is not defined"),
     mkWorld (upserted (Minimal.failBody text) (comments w1))
       (trace w1 ++ [Exec (Minimal.checkCommand cs);
                     ReadFileSync (u "prettier_output.txt"); ListComments;
                     upsert_call (Minimal.failBody text) (comments w1)])).
Proof.
  intros H Hne Hexec Hyes Hfile. unfold Minimal.run. rewrite (bind_Ret _ _ _ _ _ H).
  destruct cs as [|f cs]; [congruence|]. cbn [length Nat.eqb].
  unfold Minimal.execSync, bind at 1 2, emit. simpl. rewrite Hexec.
  unfold ret at 1. rewrite Hyes. cbn [negb].
  unfold fs_readFileSync, bind at 1 2 3, emit. simpl. rewrite Hfile. unfold ret at 1 2.
  rewrite (bind_Ret _ _ _ _ _ (issues_listComments_run _)).
  unfold upserted, upsert_call. cbn [comments add_events].
  destruct (find is_marker (first_page (comments w1))) as [c|].
  - erewrite bind_Ret by apply issues_updateComment_run.
    unfold throw. world_eq.
  - erewrite bind_Ret by apply issues_createComment_run.
    unfold throw. world_eq.
Qed.

(** ** Comments after an update or a create *)

Lemma first_page_In (cs : list Comment) (c : Comment) :
  In c (first_page cs) -> In c cs.
Proof.
  unfold first_page. intros H. rewrite <- (firstn_skipn 30 cs).
  apply in_or_app. now left.
Qed.

Lemma first_page_short (cs : list Comment) :
  length cs <= 30 -> first_page cs = cs.
Proof. apply firstn_all2. Qed.

Lemma first_page_map (g : Comment -> Comment) (cs : list Comment) :
  first_page (map g cs) = map g (first_page cs).
Proof. unfold first_page. apply firstn_map. Qed.

Lemma first_page_NoDup (cs : list Comment) :
  NoDup (map id cs) -> NoDup (map id (first_page cs)).
Proof.
  unfold first_page. intros H. rewrite <- (firstn_skipn 30 cs), map_app in H.
  now apply NoDup_app_remove_r in H.
Qed.

(** A comment found on the first page is the first of all comments that
    passes the test. *)
Lemma find_first_page (p : Comment -> bool) (cs : list Comment) (c : Comment) :
  find p (first_page cs) = Some c -> find p cs = Some c.
Proof.
  unfold first_page. generalize 30. intros n. revert cs.
  induction n as [|n IH]; intros [|x cs]; simpl; try discriminate.
  destruct (p x); [auto | apply IH].
Qed.

(** The code's test on a comment says that its body contains the
    sentinel. *)
Lemma is_marker_spec (c : Comment) : is_marker c = true <-> carries_sentinel c.
Proof. apply includes_spec. Qed.

Lemma is_marker_false (c : Comment) : is_marker c = false <-> ~ carries_sentinel c.
Proof.
  rewrite <- is_marker_spec. destruct (is_marker c); split; intros H;
    try discriminate; try reflexivity; now exfalso; apply H.
Qed.

(** What the code finds is the first listed comment that carries the
    sentinel; it finds nothing when no listed comment carries it. *)
Lemma find_first_listed (cs : list Comment) (m : Comment) :
  find is_marker (first_page cs) = Some m <-> first_listed_marker cs m.
Proof.
  unfold first_listed_marker. rewrite find_first. split;
    intros (before & after & E & Hm & Hb); exists before, after;
    (split; [exact E|]); (split; [now apply is_marker_spec|]);
    intros x Hx; apply is_marker_false; auto.
Qed.

Lemma find_no_listed (cs : list Comment) :
  find is_marker (first_page cs) = None <-> no_listed_marker cs.
Proof.
  unfold no_listed_marker. rewrite find_nothing. split; intros H x Hx;
    apply is_marker_false; auto.
Qed.

Lemma find_is_marker_In (cs : list Comment) (c : Comment) :
  find is_marker cs = Some c -> In c cs /\ is_marker c = true.
Proof. apply find_some. Qed.

Lemma set_body_self (c : Comment) (b : jsstring) :
  set_body (id c) b c = mkComment (id c) b.
Proof. unfold set_body. now rewrite Nat.eqb_refl. Qed.

Lemma upserted_has_body (b : jsstring) (cs : list Comment) :
  exists c, In c (upserted b cs) /\ body c = b.
Proof.
  unfold upserted. destruct (find is_marker (first_page cs)) as [c|] eqn:E.
  - exists (mkComment (id c) b). split; [|reflexivity].
    apply find_is_marker_In in E as [Hin _]. apply first_page_In in Hin.
    rewrite <- (set_body_self c b). now apply in_map.
  - exists (mkComment (fresh_id cs) b). split; [|reflexivity].
    apply in_or_app. right. now left.
Qed.

(** ** The checker's exit status *)

(** part_000 does what C3 says.  With a non-empty change set, a check
    that exits non-zero does not abort the run: [runExec] keeps the error
    as the outcome of the check, the run returns normally, the failure
    body built from the error's stderr is upserted after the check, and
    only then the run is marked failed. *)
Lemma complete_reports_nonzero_exit (env : Env) (fuel : nat) (w w1 : World)
    (cs : list jsstring) (error : ExecException) :
  Complete.changeSet env fuel w = (Ret cs, w1) ->
  cs <> [] ->
  exec env (Complete.checkCommand cs) = inr error ->
  let newBody := Complete.failBody (trim (e_stderr error)) in
  Complete.err (exec_outcome env (Complete.checkCommand cs)) = Some error
  /\ Complete.run env fuel w
     = (Ret tt,
        mkWorld (upserted newBody (comments w1))
          (trace w1 ++ [Exec (Complete.checkCommand cs); ListComments;
                        upsert_call newBody (comments w1);
                        SetFailed (u "Prettier check failed");
                        SetOutput (u "exitCode") 1]))
  /\ exists c, In c (upserted newBody (comments w1)) /\ body c = newBody.
Proof.
  intros H Hne Hexec newBody.
  pose proof (run_nonempty env fuel w w1 cs H Hne) as R. cbv zeta in R.
  assert (E : exec_outcome env (Complete.checkCommand cs)
              = Complete.mkExecOutcome (Some error) [] (e_stderr error)).
  { unfold exec_outcome. now rewrite Hexec. }
  rewrite E in R. rewrite E. split; [reflexivity|]. split.
  - exact R.
  - apply upserted_has_body.
Qed.

Example complete_reports_two_unformatted_files :
  let w1 := snd (Complete.run (demo_env pr_files check_fails) 3 no_comments) in
  fst (Complete.run (demo_env pr_files check_fails) 3 no_comments) = Ret tt
  /\ comments w1 = [mkComment 1 (Complete.failBody (trim stderr_two_files))]
  /\ trace w1
     = [ListFiles 100 1; ListFiles 100 2; ExistsSync (u ".prettierignore");
        Exec (u "npx prettier --check a.ts c d.md"); ListComments;
        CreateComment (Complete.failBody (trim stderr_two_files));
        SetFailed (u "Prettier check failed"); SetOutput (u "exitCode") 1].
Proof. repeat split; vm_compute; reflexivity. Qed.

(** C3, at the failing input.  A pull request that changed [a.ts], which
    the tool finds unformatted (exit status 1): in main.ts [execSync]
    throws, the run ends with that error right after the child process,
    the comments are never listed and no comment is created or updated.
    part_000, on the same input, returns normally and posts the failure
    comment. *)
Theorem main_ts_aborts_on_nonzero_exit :
  let env := demo_env pr_one_file check_fails_one in
  Minimal.run env 3 no_comments
  = (Throw (u "Error: Command failed: npx prettier --check a.ts"),
     mkWorld [] [ListFiles 100 1; ListFiles 100 2;
                 Exec (u "npx prettier --check a.ts")])
  /\ Complete.run env 3 no_comments
     = (Ret tt,
        mkWorld [mkComment 1 (Complete.failBody (trim stderr_one_file))]
          [ListFiles 100 1; ListFiles 100 2; ExistsSync (u ".prettierignore");
           Exec (u "npx prettier --check a.ts"); ListComments;
           CreateComment (Complete.failBody (trim stderr_one_file));
           SetFailed (u "Prettier check failed"); SetOutput (u "exitCode") 1]).
Proof. split; vm_compute; reflexivity. Qed.

(** part_000 does what C8 says.  With a non-empty change set the run ends
    with exactly two calls to the host: [setFailed] and the output
    [exitCode] = 1 when the check failed, a log line and the output
    [exitCode] = 0 when it passed; no call before them is one of these. *)
Lemma complete_surfaces_verdict (env : Env) (fuel : nat) (w w1 : World)
    (cs : list jsstring) :
  Complete.changeSet env fuel w = (Ret cs, w1) ->
  cs <> [] ->
  exists w' calls,
    Complete.run env fuel w = (Ret tt, w')
    /\ Forall (fun e => ~ outcome_event e) calls
    /\ trace w'
       = trace w1 ++ calls ++
         match exec env (Complete.checkCommand cs) with
         | inr _ => [SetFailed (u "Prettier check failed"); SetOutput (u "exitCode") 1]
         | inl _ => [ConsoleLog (u "Prettier check passed"); SetOutput (u "exitCode") 0]
         end.
Proof.
  intros H Hne. pose proof (run_nonempty env fuel w w1 cs H Hne) as R. cbv zeta in R.
  eexists. exists [Exec (Complete.checkCommand cs); ListComments;
                   upsert_call
                     (Complete.composeBody (exec_outcome env (Complete.checkCommand cs)))
                     (comments w1)].
  split; [exact R|]. split.
  - repeat constructor; try (intros []).
    unfold upsert_call. destruct (find is_marker (first_page (comments w1))); intros [].
  - cbn [trace]. f_equal. cbn [app]. do 3 f_equal.
    unfold verdict_calls, exec_outcome.
    destruct (exec env (Complete.checkCommand cs)) as [[out errout]|error]; reflexivity.
Qed.

(** C8, at the failing inputs.  A pull request that changed [a.ts].
    When the check passes, main.ts logs the success line and sets no
    output.  When the check fails, [execSync] throws: nothing is marked
    failed and no output is set.  And were line 103 ever reached (the
    child exits with 0 and prints the phrase), [core], which the file
    binds nowhere, makes it throw.  part_000 ends the same runs with
    [exitCode] 0 and with [setFailed] and [exitCode] 1. *)
Theorem main_ts_surfaces_no_verdict :
  (Minimal.run (demo_env pr_one_file check_passes) 3 no_comments
   = (Ret tt,
      mkWorld [mkComment 1 Minimal.passBody]
        [ListFiles 100 1; ListFiles 100 2; Exec (u "npx prettier --check a.ts");
         ListComments; CreateComment Minimal.passBody;
         ConsoleLog (u "Prettier check passed")]))
  /\ (Minimal.run (demo_env pr_one_file check_fails_one) 3 no_comments
      = (Throw (u "Error: Command failed: npx prettier --check a.ts"),
         mkWorld [] [ListFiles 100 1; ListFiles 100 2;
                     Exec (u "npx prettier --check a.ts")]))
  /\ (fst (Minimal.run (phrase_env pr_one_file) 3 no_comments)
      = Throw (u "ReferenceError: core is not defined")
      /\ Forall (fun e => ~ outcome_event e)
           (trace (snd (Minimal.run (phrase_env pr_one_file) 3 no_comments))))
  /\ (skipn 6 (trace (snd (Complete.run (demo_env pr_one_file check_passes) 3 no_comments)))
      = [ConsoleLog (u "Prettier check passed"); SetOutput (u "exitCode") 0]
      /\ skipn 6 (trace (snd (Complete.run (demo_env pr_one_file check_fails_one) 3
                                      no_comments)))
         = [SetFailed (u "Prettier check failed"); SetOutput (u "exitCode") 1]).
Proof.
  repeat split; try (vm_compute; reflexivity).
  vm_compute. repeat constructor; intros [].
Qed.

(** ** The empty change set *)

Lemma update_calls_quiet (b : jsstring) (cs : list Comment) :
  Forall (fun e => ~ outcome_event e /\ ~ exec_event e /\ ~ create_event e)
    (update_calls b cs).
Proof.
  unfold update_calls. destruct (find is_marker (first_page cs)); repeat constructor; intros [].
Qed.

Lemma collector_event_quiet (evs : list Event) :
  Forall collector_event evs ->
  Forall (fun e => ~ outcome_event e /\ ~ exec_event e /\ ~ create_event e) evs.
Proof.
  apply Forall_impl. intros [] H; simpl in *; tauto.
Qed.

(** A run with an empty change set, in either file: where it ends and
    what it called. *)
Lemma run_of_empty_calls (v : Variant) (env : Env) (fuel : nat) (w w1 : World) :
  changeSet_of v env fuel w = (Ret [], w1) ->
  exists evs,
    run_of v env fuel w
    = (Ret tt, mkWorld (updated_only pass_message (comments w)) (trace w ++ evs))
    /\ Forall (fun e => ~ outcome_event e /\ ~ exec_event e /\ ~ create_event e) evs
    /\ (forall c, find is_marker (first_page (comments w)) = Some c ->
          In (UpdateComment (id c) pass_message) evs).
Proof.
  intros H.
  assert (R : run_of v env fuel w
              = (Ret tt,
                 mkWorld (updated_only pass_message (comments w1))
                   (trace w1 ++ ListComments :: update_calls pass_message (comments w1)))).
  { destruct v; [exact (run_empty env fuel w w1 H) | exact (minimal_run_empty env fuel w w1 H)]. }
  destruct (changeSet_of_frame v env fuel) as (r & evs0 & Hevs0 & Hframe).
  rewrite Hframe in H. injection H as _ <-. cbn [comments trace add_events] in R.
  exists (evs0 ++ ListComments :: update_calls pass_message (comments w)).
  split; [rewrite R; now rewrite <- app_assoc|]. split.
  - apply Forall_app. split; [now apply collector_event_quiet|].
    constructor; [repeat split; intros []|apply update_calls_quiet].
  - intros c Hc. apply in_or_app. right. right. unfold update_calls. rewrite Hc. now left.
Qed.

(** C10.  In both files a run whose change set is empty makes no call that
    tells the host how it went: no output is set, nothing is marked
    failed, no success line is logged; its calls are those of the
    collector, the listing of the comments and at most one update. *)
Theorem empty_change_set_surfaces_nothing (v : Variant) (env : Env) (fuel : nat)
    (w w1 : World) :
  changeSet_of v env fuel w = (Ret [], w1) ->
  exists w' evs,
    run_of v env fuel w = (Ret tt, w')
    /\ trace w' = trace w ++ evs
    /\ Forall (fun e => ~ outcome_event e) evs
    /\ Forall (fun e => forall name value, e <> SetOutput name value) evs.
Proof.
  intros H. destruct (run_of_empty_calls v env fuel w w1 H) as (evs & R & Hq & _).
  eexists. exists evs. split; [exact R|]. split; [reflexivity|]. split.
  - eapply Forall_impl; [|exact Hq]. intros e (He & _). exact He.
  - eapply Forall_impl; [|exact Hq]. intros e (He & _) name value ->. apply He. exact I.
Qed.

Lemma empty_change_set_surfaces_nothing_witness :
  (exists w' evs,
     run_of complete (demo_env pr_image_only check_fails) 3 two_comments = (Ret tt, w')
     /\ trace w' = trace two_comments ++ evs
     /\ Forall (fun e => ~ outcome_event e) evs
     /\ Forall (fun e => forall name value, e <> SetOutput name value) evs)
  /\ (exists w' evs,
        run_of minimal (demo_env pr_image_only check_fails) 3 two_comments = (Ret tt, w')
        /\ trace w' = trace two_comments ++ evs
        /\ Forall (fun e => ~ outcome_event e) evs
        /\ Forall (fun e => forall name value, e <> SetOutput name value) evs).
Proof.
  split.
  - apply (empty_change_set_surfaces_nothing complete
             (demo_env pr_image_only check_fails) 3 two_comments
             (add_events two_comments [ListFiles 100 1; ListFiles 100 2;
                                       ExistsSync (u ".prettierignore")])).
    vm_compute. reflexivity.
  - apply (empty_change_set_surfaces_nothing minimal
             (demo_env pr_image_only check_fails) 3 two_comments
             (add_events two_comments [ListFiles 100 1; ListFiles 100 2])).
    vm_compute. reflexivity.
Defined.

(** C4 (amended).  In both files a run whose change set is empty lists
    the comments once, the first page of them, and at most updates: it
    creates no comment.  When a comment among those listed contains the
    sentinel, the first such comment gets the pass message as its whole
    body, and the comments with another id stay as they were.  When none
    of those listed contains it, the comments of the pull request are
    left as they were. *)
Theorem empty_change_set_only_updates (v : Variant) (env : Env) (fuel : nat)
    (w w1 : World) :
  changeSet_of v env fuel w = (Ret [], w1) ->
  exists w' evs,
    run_of v env fuel w = (Ret tt, w')
    /\ trace w' = trace w ++ evs
    /\ Forall (fun e => ~ create_event e) evs
    /\ (no_listed_marker (comments w) -> comments w' = comments w)
    /\ (forall m, first_listed_marker (comments w) m ->
          comments w' = map (set_body (id m) pass_message) (comments w)
          /\ In (mkComment (id m) pass_message) (comments w')
          /\ In (UpdateComment (id m) pass_message) evs
          /\ forall x, In x (comments w) -> id x <> id m -> In x (comments w')).
Proof.
  intros H. destruct (run_of_empty_calls v env fuel w w1 H) as (evs & R & Hq & Hupd).
  eexists. exists evs. split; [exact R|]. split; [reflexivity|]. split.
  { eapply Forall_impl; [|exact Hq]. intros e (_ & _ & He). exact He. }
  cbn [comments]. unfold updated_only. split.
  - intros Hnone. apply find_no_listed in Hnone. now rewrite Hnone.
  - intros m Hm. apply find_first_listed in Hm. rewrite Hm.
    split; [reflexivity|]. split; [|split].
    + apply find_is_marker_In in Hm as [Hin _]. apply first_page_In in Hin.
      rewrite <- (set_body_self m pass_message). now apply in_map.
    + now apply Hupd.
    + intros x Hx Hid. apply in_map_iff. exists x. split; [|exact Hx].
      unfold set_body. apply Nat.eqb_neq in Hid. now rewrite Hid.
Qed.

Lemma empty_change_set_only_updates_witness :
  let old := mkComment 9 (commentIdentifier ++ nl ++ u "old report") in
  first_listed_marker (comments two_comments) old
  /\ exists w' evs,
       run_of minimal (demo_env pr_image_only check_fails) 3 two_comments = (Ret tt, w')
       /\ trace w' = trace two_comments ++ evs
       /\ Forall (fun e => ~ create_event e) evs
       /\ comments w' = [mkComment 7 (u "LGTM"); mkComment 9 pass_message]
       /\ In (UpdateComment 9 pass_message) evs.
Proof.
  intros old.
  assert (Hold : first_listed_marker (comments two_comments) old).
  { exists [mkComment 7 (u "LGTM")], []. split; [reflexivity|]. split.
    - exists [], (nl ++ u "old report"). reflexivity.
    - intros x [<- | []]. apply is_marker_false. vm_compute. reflexivity. }
  split; [exact Hold|].
  destruct (empty_change_set_only_updates minimal (demo_env pr_image_only check_fails) 3
              two_comments
              (add_events two_comments [ListFiles 100 1; ListFiles 100 2]))
    as (w' & evs & R & Htrace & Hcreate & _ & Hupd).
  - vm_compute. reflexivity.
  - destruct (Hupd old Hold) as (Hcs & _ & Hcall & _).
    exists w', evs. repeat split; assumption.
Defined.

(** C4, as stated, fails on a busy pull request.  The earlier report is
    the 31st comment: the one call to the listing serves the first 30,
    the report is not among them, and a run with an empty change set
    leaves it as it was instead of overwriting it with the pass
    message. *)
Lemma empty_change_set_counterexample :
  let old := mkComment 31 (commentIdentifier ++ nl ++ u "old report") in
  let env := demo_env pr_image_only check_passes in
  In old (comments marker_beyond)
  /\ carries_sentinel old
  /\ body old <> pass_message
  /\ fst (changeSet_of complete env 3 marker_beyond) = Ret []
  /\ fst (changeSet_of minimal env 3 marker_beyond) = Ret []
  /\ fst (run_of complete env 3 marker_beyond) = Ret tt
  /\ fst (run_of minimal env 3 marker_beyond) = Ret tt
  /\ comments (snd (run_of complete env 3 marker_beyond)) = comments marker_beyond
  /\ comments (snd (run_of minimal env 3 marker_beyond)) = comments marker_beyond.
Proof.
  intros old env. split; [|split; [|split]].
  - apply in_or_app. right. now left.
  - exists [], (nl ++ u "old report"). reflexivity.
  - vm_compute. discriminate.
  - repeat split; vm_compute; reflexivity.
Qed.

(** The same pull request in part_000: the earlier report, comment 9, now
    reads the pass message; the human comment is untouched; nothing is
    created. *)
Example empty_change_set_overwrites_old_report :
  Complete.run (demo_env pr_image_only check_fails) 3 two_comments
  = (Ret tt,
     mkWorld [mkComment 7 (u "LGTM"); mkComment 9 pass_message]
       [ListFiles 100 1; ListFiles 100 2; ExistsSync (u ".prettierignore");
        ListComments; UpdateComment 9 pass_message]).
Proof. vm_compute. reflexivity. Qed.

Example empty_change_set_creates_nothing :
  Complete.run (demo_env pr_image_only check_fails) 3 no_comments
  = (Ret tt,
     mkWorld [] [ListFiles 100 1; ListFiles 100 2; ExistsSync (u ".prettierignore");
                 ListComments]).
Proof. vm_compute. reflexivity. Qed.

Lemma changeSet_all_filtered_out (env : Env) (fuel : nat) (w w0 : World)
    (names : list jsstring) :
  Complete.getAllChangedFiles env fuel w = (Ret names, w0) ->
  ignore_file_readable env ->
  (forall f, In f names -> filtered_out env f) ->
  exists w1, Complete.changeSet env fuel w = (Ret [], w1).
Proof.
  intros H Hread Hout. unfold Complete.changeSet. rewrite (bind_Ret _ _ _ _ _ H).
  unfold ignore_file_readable in Hread. unfold filtered_out in Hout.
  set (path := getInput env (u "prettier-ignore")) in *.
  unfold fs_existsSync, fs_readFileSync, bind, emit, ret, throw. simpl.
  destruct (existsSync env path) eqn:Eex.
  - destruct (readFileSync env path) as [content|] eqn:Erd; [|now exfalso; apply Hread].
    rewrite unignored_all; [eexists; reflexivity|].
    intros f Hf. apply filter_In in Hf as [Hf Hext].
    destruct (Hout f Hf) as [Hno|[_ Hig]]; [congruence|].
    now apply Hig.
  - eexists. f_equal. f_equal. apply filter_all_false.
    intros f Hf. destruct (Hout f Hf) as [Hno|[Hex _]]; [exact Hno | discriminate].
Qed.

Lemma minimal_changeSet_all_filtered_out (env : Env) (fuel : nat) (w w0 : World)
    (names : list jsstring) :
  Minimal.getAllChangedFiles env fuel w = (Ret names, w0) ->
  (forall f, In f names -> test_extension Minimal.extensions f = false) ->
  Minimal.changeSet env fuel w = (Ret [], w0).
Proof.
  intros H Hout. unfold Minimal.changeSet. rewrite (bind_Ret _ _ _ _ _ H).
  unfold ret. now rewrite (filter_all_false _ _ Hout).
Qed.

(** C6.  In both files, when every collected file is filtered out (wrong
    extension or, in part_000, matched by the rules of the ignore file),
    the run starts no child process, returns normally without marking
    the run failed, and the only body it can write to a comment is the
    pass message. *)
Theorem nothing_to_check_passes_without_exec (v : Variant) (env : Env) (fuel : nat)
    (w w0 : World) (names : list jsstring) :
  getAllChangedFiles_of v env fuel w = (Ret names, w0) ->
  (v = complete -> ignore_file_readable env) ->
  (forall f, In f names -> filtered_out_of v env f) ->
  exists w' evs,
    run_of v env fuel w = (Ret tt, w')
    /\ trace w' = trace w ++ evs
    /\ Forall (fun e => ~ exec_event e) evs
    /\ Forall (fun e => forall message, e <> SetFailed message) evs
    /\ comments w' = updated_only pass_message (comments w).
Proof.
  intros H Hread Hout.
  assert (Hcs : exists w1, changeSet_of v env fuel w = (Ret [], w1)).
  { destruct v; cbn [getAllChangedFiles_of changeSet_of filtered_out_of] in *.
    - apply (changeSet_all_filtered_out env fuel w w0 names H (Hread eq_refl) Hout).
    - exists w0. now apply (minimal_changeSet_all_filtered_out env fuel w w0 names). }
  destruct Hcs as (w1 & Hcs).
  destruct (run_of_empty_calls v env fuel w w1 Hcs) as (evs & R & Hq & _).
  eexists. exists evs. split; [exact R|]. split; [reflexivity|]. split; [|split].
  - eapply Forall_impl; [|exact Hq]. intros e (_ & He & _). exact He.
  - eapply Forall_impl; [|exact Hq]. intros e (He & _) message ->. apply He. exact I.
  - reflexivity.
Qed.

Lemma nothing_to_check_passes_without_exec_witness :
  exists w' evs,
    run_of complete (demo_env pr_image_only check_fails) 3 two_comments = (Ret tt, w')
    /\ trace w' = trace two_comments ++ evs
    /\ Forall (fun e => ~ exec_event e) evs
    /\ Forall (fun e => forall message, e <> SetFailed message) evs
    /\ comments w' = updated_only pass_message (comments two_comments).
Proof.
  apply (nothing_to_check_passes_without_exec complete
           (demo_env pr_image_only check_fails) 3 two_comments
           (add_events two_comments [ListFiles 100 1; ListFiles 100 2])
           [u "b.png"]).
  - vm_compute. reflexivity.
  - intros _ H. vm_compute in H. discriminate.
  - intros f [<-|[]]. left. vm_compute. reflexivity.
Defined.

(** ** The command of the check *)





(** ** The marker comment *)

Lemma pass_message_has_sentinel : includes pass_message commentIdentifier = true.
Proof. apply includes_prefix. Qed.

Lemma failBody_has_sentinel (out : jsstring) :
  includes (Complete.failBody out) commentIdentifier = true.
Proof. apply includes_prefix. Qed.

Lemma composeBody_has_sentinel (child : Complete.ExecOutcome) :
  includes (Complete.composeBody child) commentIdentifier = true.
Proof.
  unfold Complete.composeBody.
  destruct (Complete.err child); [apply failBody_has_sentinel | apply pass_message_has_sentinel].
Qed.

Lemma ids_set_body (i : nat) (b : jsstring) (cs : list Comment) :
  map id (map (set_body i b) cs) = map id cs.
Proof.
  rewrite map_map. apply map_ext. intros c. unfold set_body.
  destruct (id c =? i); reflexivity.
Qed.

Lemma NoDup_ids_inj (cs : list Comment) (x y : Comment) :
  NoDup (map id cs) -> In x cs -> In y cs -> id x = id y -> x = y.
Proof.
  induction cs as [|c cs IH]; simpl; intros Hnd Hx Hy E; [contradiction|].
  inversion Hnd as [|? ? Hnotin Hnd']; subst.
  destruct Hx as [->|Hx], Hy as [->|Hy]; auto.
  - exfalso. apply Hnotin. rewrite E. now apply in_map.
  - exfalso. apply Hnotin. rewrite <- E. now apply in_map.
Qed.

(** Updating a marker comment with a body that carries the sentinel
    changes no comment's being a marker. *)
Lemma marker_count_update (cs : list Comment) (c : Comment) (b : jsstring) :
  NoDup (map id cs) ->
  In c cs -> is_marker c = true ->
  includes b commentIdentifier = true ->
  marker_count (map (set_body (id c) b) cs) = marker_count cs.
Proof.
  intros Hnd Hin Hm Hb.
  unfold marker_count. apply filter_map_length. intros x Hx.
  unfold set_body. destruct (Nat.eqb_spec (id x) (id c)) as [E|_]; [|reflexivity].
  rewrite (NoDup_ids_inj cs x c Hnd Hx Hin E), Hm. exact Hb.
Qed.

Lemma marker_count_none (cs : list Comment) :
  find is_marker cs = None -> marker_count cs = 0.
Proof.
  intros H. unfold marker_count. rewrite filter_all_false; [reflexivity|].
  intros x Hx. now apply (find_none _ _ H).
Qed.

Lemma marker_count_some (cs : list Comment) (c : Comment) :
  In c cs -> is_marker c = true -> 1 <= marker_count cs.
Proof.
  intros Hin Hm. unfold marker_count.
  assert (Hf : In c (filter is_marker cs)) by now apply filter_In.
  destruct (filter is_marker cs); [contradiction | simpl; lia].
Qed.

(** After an update of the marker found on the first page, the marker is
    on the first page still. *)
Lemma update_keeps_reach (cs : list Comment) (c : Comment) (b : jsstring) :
  NoDup (map id cs) ->
  find is_marker (first_page cs) = Some c ->
  includes b commentIdentifier = true ->
  marker_count (map (set_body (id c) b) cs) = marker_count cs
  /\ 1 <= marker_count cs
  /\ marker_in_reach (map (set_body (id c) b) cs).
Proof.
  intros Hnd E Hb. apply find_is_marker_In in E as [Hin Hm].
  split; [|split].
  - apply marker_count_update; auto. now apply first_page_In.
  - apply (marker_count_some cs c); auto. now apply first_page_In.
  - right. rewrite first_page_map.
    rewrite (marker_count_update (first_page cs) c b (first_page_NoDup cs Hnd) Hin Hm Hb).
    now apply (marker_count_some _ c).
Qed.

Lemma fresh_id_is_new (cs : list Comment) : ~ In (fresh_id cs) (map id cs).
Proof.
  intros H. unfold fresh_id in H.
  assert (G : forall l n, In n l -> n <= list_max l).
  { induction l as [|a l IH]; simpl; intros n Hn; [contradiction|].
    destruct Hn as [->|Hn]; [lia|]. specialize (IH n Hn). lia. }
  apply G in H. lia.
Qed.

(** The marker comments after an update-or-create, when the marker is in
    reach: one if there was none, as many as before otherwise; the ids
    stay distinct and the marker stays in reach. *)
Lemma upserted_markers (b : jsstring) (cs : list Comment) :
  NoDup (map id cs) ->
  includes b commentIdentifier = true ->
  marker_in_reach cs ->
  NoDup (map id (upserted b cs))
  /\ marker_count (upserted b cs) = Nat.max 1 (marker_count cs)
  /\ marker_in_reach (upserted b cs).
Proof.
  intros Hnd Hb Hreach. unfold upserted.
  destruct (find is_marker (first_page cs)) as [c|] eqn:E.
  - destruct (update_keeps_reach cs c b Hnd E Hb) as (Hcount & Hone & Hr).
    rewrite ids_set_body, Hcount. split; [exact Hnd|]. split; [lia | exact Hr].
  - pose proof (marker_count_none _ E) as Hzero.
    assert (Hlen : length cs < 30) by (destruct Hreach as [H | H]; [exact H | lia]).
    rewrite first_page_short in Hzero by lia.
    assert (Hcount : marker_count (cs ++ [mkComment (fresh_id cs) b]) = 1).
    { unfold marker_count. rewrite filter_app, length_app. fold (marker_count cs).
      rewrite Hzero. simpl. unfold is_marker at 1. simpl. now rewrite Hb. }
    split; [|split].
    + rewrite map_app. simpl. apply NoDup_snoc; [exact Hnd | apply fresh_id_is_new].
    + rewrite Hcount, Hzero. reflexivity.
    + right. rewrite first_page_short; [lia|]. rewrite length_app. simpl. lia.
Qed.

Lemma updated_only_markers (b : jsstring) (cs : list Comment) :
  NoDup (map id cs) ->
  includes b commentIdentifier = true ->
  NoDup (map id (updated_only b cs))
  /\ marker_count (updated_only b cs) = marker_count cs
  /\ length (updated_only b cs) = length cs
  /\ (marker_in_reach cs -> marker_in_reach (updated_only b cs)).
Proof.
  intros Hnd Hb. unfold updated_only.
  destruct (find is_marker (first_page cs)) as [c|] eqn:E.
  - destruct (update_keeps_reach cs c b Hnd E Hb) as (Hcount & _ & Hr).
    rewrite ids_set_body, Hcount, length_map. auto.
  - auto.
Qed.

(** The comments after a run, whatever its outcome. *)
Lemma run_comments (env : Env) (fuel : nat) (w : World) :
  comments (snd (Complete.run env fuel w)) = comments w
  \/ comments (snd (Complete.run env fuel w))
     = updated_only pass_message (comments w)
  \/ exists child,
       comments (snd (Complete.run env fuel w))
       = upserted (Complete.composeBody child) (comments w).
Proof.
  destruct (changeSet_frame env fuel) as (r & evs0 & _ & Hframe).
  destruct r as [cs| e |].
  - destruct cs as [|f cs].
    + right. left. now rewrite (run_empty env fuel w _ (Hframe w)).
    + right. right. eexists.
      rewrite (run_nonempty env fuel w _ (f :: cs) (Hframe w)) by discriminate.
      reflexivity.
  - left. unfold Complete.run, bind. now rewrite Hframe.
  - left. unfold Complete.run, bind. now rewrite Hframe.
Qed.

(** The comments after a run of the minimal variant, whatever its
    outcome: untouched, or updated or created with a body that starts
    with the sentinel. *)
Lemma minimal_run_comments (env : Env) (fuel : nat) (w : World) :
  comments (snd (Minimal.run env fuel w)) = comments w
  \/ comments (snd (Minimal.run env fuel w)) = updated_only pass_message (comments w)
  \/ exists rest,
       comments (snd (Minimal.run env fuel w))
       = upserted (commentIdentifier ++ rest) (comments w).
Proof.
  destruct (minimal_changeSet_frame env fuel) as (r & evs0 & _ & Hframe).
  destruct r as [cs| e |].
  - destruct cs as [|f cs].
    + right. left. now rewrite (minimal_run_empty env fuel w _ (Hframe w)).
    + assert (Hne : f :: cs <> []) by discriminate.
      destruct (exec env (Minimal.checkCommand (f :: cs))) as [[out errout]|error] eqn:Eexec.
      * destruct (includes out (u "Run Prettier to fix")) eqn:Ew.
        -- destruct (readFileSync env (u "prettier_output.txt")) as [text|] eqn:Efile.
           ++ right. right. eexists.
              rewrite (minimal_run_warnings env fuel w _ _ out errout text
                         (Hframe w) Hne Eexec Ew Efile).
              reflexivity.
           ++ left. now rewrite (minimal_run_missing_file env fuel w _ _ out errout
                                   (Hframe w) Hne Eexec Ew Efile).
        -- right. right. eexists.
           rewrite (minimal_run_pass env fuel w _ _ out errout (Hframe w) Hne Eexec Ew).
           reflexivity.
      * left. now rewrite (minimal_nonzero_exit_aborts env fuel w _ _ error
                             (Hframe w) Hne Eexec).
  - left. unfold Minimal.run, bind. now rewrite Hframe.
  - left. unfold Minimal.run, bind. now rewrite Hframe.
Qed.

(** Distinct ids, at most one marker comment, and that one in reach:
    kept by every run of either file, whatever its outcome. *)
Lemma run_of_keeps_single_marker (v : Variant) (env : Env) (fuel : nat) (w : World) :
  NoDup (map id (comments w)) ->
  marker_count (comments w) <= 1 ->
  marker_in_reach (comments w) ->
  NoDup (map id (comments (snd (run_of v env fuel w))))
  /\ marker_count (comments (snd (run_of v env fuel w))) <= 1
  /\ marker_in_reach (comments (snd (run_of v env fuel w))).
Proof.
  intros Hnd Hone Hreach.
  assert (Hcases : comments (snd (run_of v env fuel w)) = comments w
            \/ comments (snd (run_of v env fuel w)) = updated_only pass_message (comments w)
            \/ exists b, includes b commentIdentifier = true
                 /\ comments (snd (run_of v env fuel w)) = upserted b (comments w)).
  { destruct v; cbn [run_of].
    - destruct (run_comments env fuel w) as [H | [H | [child H]]]; auto.
      right. right. exists (Complete.composeBody child).
      split; [apply composeBody_has_sentinel | exact H].
    - destruct (minimal_run_comments env fuel w) as [H | [H | [rest H]]]; auto.
      right. right. exists (commentIdentifier ++ rest).
      split; [apply includes_prefix | exact H]. }
  destruct Hcases as [-> | [-> | (b & Hb & ->)]].
  - auto.
  - destruct (updated_only_markers pass_message (comments w) Hnd pass_message_has_sentinel)
      as (H1 & H2 & _ & H3). rewrite H2. auto.
  - destruct (upserted_markers b (comments w) Hnd Hb Hreach) as (H1 & H2 & H3).
    rewrite H2. split; [exact H1|]. split; [lia | exact H3].
Qed.

(** With a non-empty change set, the runs that return normally all upsert
    one and the same body, which starts with the sentinel. *)
Lemma run_of_returns_upserted (v : Variant) (env : Env) (fuel : nat)
    (cs : list jsstring) (w0 x : World) :
  changeSet_of v env fuel w0 = (Ret cs, x) ->
  cs <> [] ->
  exists newBody,
    includes newBody commentIdentifier = true
    /\ forall w w1, run_of v env fuel w = (Ret tt, w1) ->
                    comments w1 = upserted newBody (comments w).
Proof.
  intros Hcs Hne.
  destruct (changeSet_of_frame v env fuel) as (r & evs0 & _ & Hframe).
  assert (Er : r = Ret cs) by (rewrite Hframe in Hcs; congruence). subst r.
  destruct v; cbn [changeSet_of run_of] in *.
  - exists (Complete.composeBody (exec_outcome env (Complete.checkCommand cs))).
    split; [apply composeBody_has_sentinel|]. intros w w1 R.
    rewrite (run_nonempty env fuel w _ cs (Hframe w) Hne) in R.
    injection R as <-. reflexivity.
  - exists Minimal.passBody. split; [apply includes_prefix|]. intros w w1 R.
    destruct (exec env (Minimal.checkCommand cs)) as [[out errout]|error] eqn:Eexec.
    + destruct (includes out (u "Run Prettier to fix")) eqn:Ew.
      * destruct (readFileSync env (u "prettier_output.txt")) as [text|] eqn:Efile.
        -- rewrite (minimal_run_warnings env fuel w _ cs out errout text
                      (Hframe w) Hne Eexec Ew Efile) in R. discriminate.
        -- rewrite (minimal_run_missing_file env fuel w _ cs out errout
                      (Hframe w) Hne Eexec Ew Efile) in R. discriminate.
      * rewrite (minimal_run_pass env fuel w _ cs out errout (Hframe w) Hne Eexec Ew) in R.
        injection R as <-. reflexivity.
    + rewrite (minimal_nonzero_exit_aborts env fuel w _ cs error (Hframe w) Hne Eexec) in R.
      discriminate.
Qed.

(** C1 (amended).  In both files, on a pull request whose comments have
    distinct ids, of which at most one carries the sentinel, and whose
    marker is in reach of the one page of comments a run lists (fewer
    than 30 comments, or the marker among the first 30): every run,
    whatever its outcome, leaves at most one comment that carries the
    sentinel, and so does a second run.  The marker comment is found
    again by [find is_marker] on the listed comments, the first of them
    whose body includes the sentinel.  With a non-empty change set, two
    runs in succession that both return normally leave exactly one marker
    comment: the first run upserts, the second overwrites the body of
    the comment the first one left and creates none (a run of part_000
    always returns normally once the change set is known).  With an
    empty change set no run creates a comment, so the number of marker
    comments stays what it was. *)
Theorem marker_comment_stays_single (v : Variant) (env : Env) (fuel : nat)
    (w w1 w2 : World) (r1 r2 : Result unit) :
  NoDup (map id (comments w)) ->
  marker_count (comments w) <= 1 ->
  marker_in_reach (comments w) ->
  run_of v env fuel w = (r1, w1) ->
  run_of v env fuel w1 = (r2, w2) ->
  (marker_count (comments w1) <= 1 /\ marker_count (comments w2) <= 1)
  /\ (forall cs x, changeSet_of v env fuel w = (Ret cs, x) -> cs <> [] ->
        r1 = Ret tt -> r2 = Ret tt ->
        marker_count (comments w1) = 1 /\ marker_count (comments w2) = 1
        /\ exists c newBody,
             find is_marker (first_page (comments w1)) = Some c
             /\ first_listed_marker (comments w1) c
             /\ comments w1 = upserted newBody (comments w)
             /\ comments w2 = map (set_body (id c) newBody) (comments w1)
             /\ length (comments w2) = length (comments w1))
  /\ (forall x, changeSet_of v env fuel w = (Ret [], x) ->
        r1 = Ret tt /\ r2 = Ret tt
        /\ marker_count (comments w2) = marker_count (comments w)
        /\ length (comments w2) = length (comments w))
  /\ (v = complete -> forall cs x, changeSet_of v env fuel w = (Ret cs, x) ->
        r1 = Ret tt /\ r2 = Ret tt).
Proof.
  intros Hnd Hone Hreach R1 R2.
  destruct (run_of_keeps_single_marker v env fuel w Hnd Hone Hreach)
    as (Hnd1 & Hone1 & Hreach1).
  rewrite R1 in Hnd1, Hone1, Hreach1. cbn [snd] in Hnd1, Hone1, Hreach1.
  destruct (run_of_keeps_single_marker v env fuel w1 Hnd1 Hone1 Hreach1)
    as (Hnd2 & Hone2 & _).
  rewrite R2 in Hnd2, Hone2. cbn [snd] in Hnd2, Hone2.
  destruct (changeSet_of_frame v env fuel) as (r & evs0 & _ & Hframe).
  split; [auto|]. split; [|split].
  - intros cs x Hcs Hne -> ->.
    destruct (run_of_returns_upserted v env fuel cs w x Hcs Hne) as (newBody & Hb & Hup).
    pose proof (Hup w w1 R1) as E1. pose proof (Hup w1 w2 R2) as E2.
    destruct (upserted_markers newBody (comments w) Hnd Hb Hreach) as (_ & Hcount & _).
    rewrite <- E1 in Hcount.
    assert (Hc1 : marker_count (comments w1) = 1) by lia.
    destruct (find is_marker (first_page (comments w1))) as [c|] eqn:Ec.
    + assert (E2' : comments w2 = map (set_body (id c) newBody) (comments w1)).
      { rewrite E2. unfold upserted. now rewrite Ec. }
      split; [exact Hc1|]. split.
      * rewrite E2'.
        destruct (update_keeps_reach _ c newBody Hnd1 Ec Hb) as (-> & _). exact Hc1.
      * exists c, newBody. split; [reflexivity|]. split; [now apply find_first_listed|].
        split; [exact E1|]. split; [exact E2'|]. rewrite E2'. apply length_map.
    + exfalso. apply marker_count_none in Ec.
      destruct Hreach1 as [Hlen | Hsome]; [|lia].
      rewrite first_page_short in Ec by lia. lia.
  - intros x Hcs.
    assert (Er : r = Ret []) by (rewrite Hframe in Hcs; congruence). subst r.
    destruct (run_of_empty_calls v env fuel w _ (Hframe w)) as (evs1 & E1 & _).
    destruct (run_of_empty_calls v env fuel w1 _ (Hframe w1)) as (evs2 & E2 & _).
    rewrite E1 in R1. rewrite E2 in R2.
    injection R1 as <- <-. injection R2 as <- <-. cbn [comments] in *.
    destruct (updated_only_markers pass_message (comments w) Hnd pass_message_has_sentinel)
      as (_ & Hm1 & Hl1 & _).
    destruct (updated_only_markers pass_message _ Hnd1 pass_message_has_sentinel)
      as (_ & Hm2 & Hl2 & _).
    repeat split; auto; congruence.
  - intros -> cs x Hcs. cbn [changeSet_of run_of] in *.
    assert (Er : r = Ret cs) by (rewrite Hframe in Hcs; congruence). subst r.
    destruct cs as [|f cs].
    + rewrite (run_empty env fuel w _ (Hframe w)) in R1.
      rewrite (run_empty env fuel w1 _ (Hframe w1)) in R2.
      injection R1 as <- _. injection R2 as <- _. auto.
    + rewrite (run_nonempty env fuel w _ _ (Hframe w)) in R1 by discriminate.
      rewrite (run_nonempty env fuel w1 _ _ (Hframe w1)) in R2 by discriminate.
      injection R1 as <- _. injection R2 as <- _. auto.
Qed.

Lemma marker_comment_stays_single_witness :
  let env := demo_env pr_files check_fails in
  let w1 := snd (run_of complete env 3 two_comments) in
  let w2 := snd (run_of complete env 3 w1) in
  (marker_count (comments w1) <= 1 /\ marker_count (comments w2) <= 1)
  /\ marker_count (comments w1) = 1 /\ marker_count (comments w2) = 1
  /\ length (comments w2) = 2.
Proof.
  intros env w1 w2.
  destruct (marker_comment_stays_single complete env 3 two_comments w1 w2 (Ret tt) (Ret tt))
    as (Hle & Hnon & _).
  - repeat constructor; simpl; intuition discriminate.
  - vm_compute. lia.
  - left. vm_compute. lia.
  - vm_compute. reflexivity.
  - vm_compute. reflexivity.
  - split; [exact Hle|].
    destruct (Hnon [u "a.ts"; u "c d.md"]
                (add_events two_comments [ListFiles 100 1; ListFiles 100 2;
                                          ExistsSync (u ".prettierignore")]))
      as (H1 & H2 & _).
    + vm_compute. reflexivity.
    + discriminate.
    + reflexivity.
    + reflexivity.
    + split; [exact H1|]. split; [exact H2|]. vm_compute. reflexivity.
Defined.

(** C1, as stated, fails three times.  A pull request on which two
    comments already carry the sentinel (here the second one quotes it)
    still has two after a run: only the first is looked for and updated.
    Two runs with an empty change set on a pull request without comments
    leave no marker comment at all, not exactly one.  And on a pull
    request with 30 comments by people the marker comment a run creates
    is the 31st: the next run lists the first 30, does not find it and
    creates another, so two runs leave two marker comments. *)
Lemma marker_comment_counterexample :
  (marker_count (comments twice_marked) = 2
   /\ fst (Complete.run (demo_env pr_files check_passes) 3 twice_marked) = Ret tt
   /\ marker_count
        (comments (snd (Complete.run (demo_env pr_files check_passes) 3 twice_marked)))
      = 2)
  /\ (let env := demo_env pr_image_only check_passes in
      let w1 := snd (Complete.run env 3 no_comments) in
      let w2 := snd (Complete.run env 3 w1) in
      fst (Complete.run env 3 no_comments) = Ret tt
      /\ fst (Complete.run env 3 w1) = Ret tt
      /\ marker_count (comments w2) = 0
      /\ marker_count (comments w2) <> 1)
  /\ (let env := demo_env pr_files check_fails in
      let w1 := snd (Complete.run env 3 thirty_comments) in
      let w2 := snd (Complete.run env 3 w1) in
      NoDup (map id (comments thirty_comments))
      /\ marker_count (comments thirty_comments) = 0
      /\ fst (Complete.run env 3 thirty_comments) = Ret tt
      /\ fst (Complete.run env 3 w1) = Ret tt
      /\ length (comments w1) = 31 /\ marker_count (comments w1) = 1
      /\ length (comments w2) = 32 /\ marker_count (comments w2) = 2).
Proof.
  split; [|split].
  - repeat split; vm_compute; reflexivity.
  - repeat split; try (vm_compute; reflexivity). vm_compute. discriminate.
  - split; [|repeat split; vm_compute; reflexivity].
    unfold thirty_comments, crowd. cbn [comments]. rewrite map_map. cbn [id].
    rewrite map_id. apply seq_NoDup.
Qed.

(** ** Concrete runs *)

(** The example of the specification: of [a.ts] and [b.png] the check
    gets [a.ts] only. *)
Example change_set_drops_image :
  fst (Complete.changeSet
         (demo_env [mkPullFile (u "a.ts") (u "modified");
                    mkPullFile (u "b.png") (u "modified")] check_passes)
         3 no_comments)
  = Ret [u "a.ts"].
Proof. vm_compute. reflexivity. Qed.

(** The extension is looked for at the very end of the name. *)
Example test_extension_examples :
  test_extension Complete.extensions (u "src/app.tsx") = true
  /\ test_extension Complete.extensions (u "notes.md.bak") = false
  /\ test_extension Complete.extensions (u "ts") = false
  /\ test_extension Complete.extensions (u ".vue") = true
  /\ test_extension Minimal.extensions (u "page.vue") = false.
Proof. repeat split; vm_compute; reflexivity. Qed.

(** [JSON.stringify] escapes the quote, the backslash and control
    characters, keeps a surrogate pair, and leaves what only a shell
    reads as special, such as the dollar sign, as it is. *)
Example JSON_stringify_examples :
  JSON_stringify (u "a b.ts") = [0x22%N] ++ u "a b.ts" ++ [0x22%N]
  /\ JSON_stringify (u "q" ++ [0x22%N; 0x5C%N; 0x09%N; 0x1F%N])
     = [0x22%N] ++ u "q" ++ [0x5C%N; 0x22%N] ++ u "\\\t\u001f" ++ [0x22%N]
  /\ JSON_stringify party_popper = [0x22%N] ++ party_popper ++ [0x22%N]
  /\ JSON_stringify [0xD83C%N] = [0x22%N] ++ u "\ud83c" ++ [0x22%N]
  /\ JSON_stringify (u "$HOME.ts") = [0x22%N] ++ u "$HOME.ts" ++ [0x22%N].
Proof. repeat split; vm_compute; reflexivity. Qed.

(** A first run on a pull request without comments creates the failure
    comment; a second run, the check now passing, overwrites it. *)
Example fail_then_pass :
  let w1 := snd (Complete.run (demo_env pr_files check_fails) 3 no_comments) in
  let w2 := snd (Complete.run (demo_env pr_files check_passes) 3 w1) in
  comments w1 = [mkComment 1 (Complete.failBody (trim stderr_two_files))]
  /\ comments w2 = [mkComment 1 pass_message].
Proof. split; vm_compute; reflexivity. Qed.

(** The pass message of the empty branch is the same text in both files,
    and so is the command of the check. *)
Example both_files_same_texts :
  Complete.passBody = pass_message /\ Minimal.body0 = pass_message
  /\ forall cs, Minimal.checkCommand cs = Complete.checkCommand cs.
Proof. repeat split. Qed.

(** * Further properties *)

(** ** The course of a run *)

Lemma startsWith_includes (p s : jsstring) :
  startsWith p s = true -> includes s p = true.
Proof. intros H. rewrite includes_eq, H. reflexivity. Qed.

Lemma verdict_calls_outcome (child : Complete.ExecOutcome) :
  Forall outcome_event (verdict_calls child) /\ length (verdict_calls child) <= 2.
Proof.
  unfold verdict_calls. destruct (Complete.err child); split;
    try (repeat constructor); simpl; lia.
Qed.

Lemma composeBody_starts_with_sentinel (child : Complete.ExecOutcome) :
  startsWith commentIdentifier (Complete.composeBody child) = true.
Proof.
  unfold Complete.composeBody. destruct (Complete.err child); apply startsWith_app.
Qed.

Ltac course_eq :=
  unfold course_calls, add_events;
  cbn [collecting checking commenting telling apply_effect effect_calls
       comments trace app];
  rewrite <- ?app_assoc; cbn [app]; rewrite ?app_nil_r; reflexivity.

Ltac staged :=
  unfold well_staged;
  cbn [collecting checking commenting telling effect_body length];
  repeat match goal with |- _ /\ _ => split end.

(** Once the variant, the oracles and the fuel are fixed, so is the course
    of the run: the comments it finds only decide whether the marker is
    updated or created. *)
Lemma run_of_course (v : Variant) (env : Env) (fuel : nat) :
  exists (r : Result unit) (c : Course),
    well_staged c
    /\ forall w,
         run_of v env fuel w
         = (r, mkWorld (apply_effect (commenting c) (comments w))
                 (trace w ++ course_calls c (comments w))).
Proof.
  destruct (changeSet_of_frame v env fuel) as (r & evs0 & Hevs0 & Hframe).
  assert (Hidle : well_staged (mkCourse evs0 [] Untouched [])).
  { staged;
      [exact Hevs0 | now left | discriminate | constructor | lia | discriminate]. }
  assert (Hchecked : forall names tail eff told,
            names <> [] ->
            tail = [] \/ tail = [ReadFileSync (u "prettier_output.txt")] ->
            (forall b, effect_body eff = Some b -> startsWith commentIdentifier b = true) ->
            Forall outcome_event told -> length told <= 2 ->
            well_staged
              (mkCourse evs0 (Exec (u "npx prettier --check " ++ join (u " ") names) :: tail)
                 eff told)).
  { intros names tail eff told Hne Htail Hb Htold Hlen. staged;
      [exact Hevs0 | | exact Hb | exact Htold | exact Hlen | discriminate].
    right. exists names. split; [exact Hne|]. destruct Htail as [-> | ->]; auto. }
  destruct r as [cs| e |].
  - destruct cs as [|f cs].
    + (* empty change set *)
      exists (Ret tt), (mkCourse evs0 [] (UpdateOnly pass_message) []).
      split.
      * staged; [exact Hevs0 | now left | | constructor | lia | discriminate].
        intros b [= <-]. apply startsWith_app.
      * intros w.
        assert (R : run_of v env fuel w
                    = (Ret tt,
                       mkWorld (updated_only pass_message (comments (add_events w evs0)))
                         (trace (add_events w evs0) ++ ListComments
                            :: update_calls pass_message (comments (add_events w evs0))))).
        { destruct v; [exact (run_empty env fuel w _ (Hframe w))
                      | exact (minimal_run_empty env fuel w _ (Hframe w))]. }
        rewrite R. course_eq.
    + (* something to check *)
      assert (Hne : f :: cs <> []) by discriminate.
      destruct v; cbn [changeSet_of run_of] in *.
      * set (child := exec_outcome env (Complete.checkCommand (f :: cs))).
        exists (Ret tt),
          (mkCourse evs0 [Exec (Complete.checkCommand (f :: cs))]
             (Upsert (Complete.composeBody child)) (verdict_calls child)).
        split.
        -- apply (Hchecked (f :: cs) [] _ _ Hne);
             [now left | | apply verdict_calls_outcome | apply verdict_calls_outcome].
           intros b [= <-]. apply composeBody_starts_with_sentinel.
        -- intros w. rewrite (run_nonempty env fuel w _ _ (Hframe w) Hne).
           fold child. course_eq.
      * destruct (exec env (Minimal.checkCommand (f :: cs))) as [[out errout]|error] eqn:Eexec.
        -- destruct (includes out (u "Run Prettier to fix")) eqn:Ew.
           ++ destruct (readFileSync env (u "prettier_output.txt")) as [text|] eqn:Efile.
              ** exists (Throw (u "ReferenceError: core is not defined")),
                   (mkCourse evs0
                      [Exec (Minimal.checkCommand (f :: cs));
                       ReadFileSync (u "prettier_output.txt")]
                      (Upsert (Minimal.failBody text)) []).
                 split.
                 --- apply (Hchecked (f :: cs) _ _ _ Hne);
                       [now right | | constructor | simpl; lia].
                     intros b [= <-]. apply startsWith_app.
                 --- intros w.
                     rewrite (minimal_run_warnings env fuel w _ _ out errout text
                                (Hframe w) Hne Eexec Ew Efile).
                     course_eq.
              ** exists (Throw (u "ENOENT: no such file or directory")),
                   (mkCourse evs0
                      [Exec (Minimal.checkCommand (f :: cs));
                       ReadFileSync (u "prettier_output.txt")]
                      Untouched []).
                 split.
                 --- apply (Hchecked (f :: cs) _ _ _ Hne);
                       [now right | discriminate | constructor | simpl; lia].
                 --- intros w.
                     rewrite (minimal_run_missing_file env fuel w _ _ out errout
                                (Hframe w) Hne Eexec Ew Efile).
                     course_eq.
           ++ exists (Ret tt),
                (mkCourse evs0 [Exec (Minimal.checkCommand (f :: cs))]
                   (Upsert Minimal.passBody) [ConsoleLog (u "Prettier check passed")]).
              split.
              ** apply (Hchecked (f :: cs) [] _ _ Hne);
                   [now left | | repeat constructor | simpl; lia].
                 intros b [= <-]. apply startsWith_app.
              ** intros w.
                 rewrite (minimal_run_pass env fuel w _ _ out errout (Hframe w) Hne Eexec Ew).
                 course_eq.
        -- exists (Throw (u "Error: Command failed: " ++ Minimal.checkCommand (f :: cs))),
             (mkCourse evs0 [Exec (Minimal.checkCommand (f :: cs))] Untouched []).
           split.
           ++ apply (Hchecked (f :: cs) [] _ _ Hne);
                [now left | discriminate | constructor | simpl; lia].
           ++ intros w.
              rewrite (minimal_nonzero_exit_aborts env fuel w _ _ error (Hframe w) Hne Eexec).
              course_eq.
  - exists (Throw e), (mkCourse evs0 [] Untouched []). split; [exact Hidle|].
    intros w. destruct v; unfold run_of, Complete.run, Minimal.run, bind;
      cbn [changeSet_of] in Hframe; rewrite Hframe;
      course_eq.
  - exists OutOfFuel, (mkCourse evs0 [] Untouched []). split; [exact Hidle|].
    intros w. destruct v; unfold run_of, Complete.run, Minimal.run, bind;
      cbn [changeSet_of] in Hframe; rewrite Hframe;
      course_eq.
Qed.

Lemma effect_calls_shape (eff : Effect) (cs : list Comment) :
  effect_calls eff cs = []
  \/ effect_calls eff cs = [ListComments]
  \/ exists e b, effect_body eff = Some b
       /\ (e = CreateComment b \/ exists i, e = UpdateComment i b)
       /\ effect_calls eff cs = [ListComments; e].
Proof.
  destruct eff as [|b|b]; cbn [effect_calls effect_body].
  - now left.
  - unfold update_calls. destruct (find is_marker (first_page cs)) as [c|].
    + right. right. exists (UpdateComment (id c) b), b. eauto.
    + right. now left.
  - right. right. unfold upsert_call. destruct (find is_marker (first_page cs)) as [c|].
    + exists (UpdateComment (id c) b), b. eauto.
    + exists (CreateComment b), b. eauto.
Qed.

(** The writes of a course are those of its third stage. *)
Lemma course_writes (c : Course) (cs : list Comment) (e : Event) :
  well_staged c -> In e (course_calls c cs) -> write_event e ->
  exists b, effect_body (commenting c) = Some b
            /\ (e = CreateComment b \/ exists i, e = UpdateComment i b).
Proof.
  intros (Hcol & Hchk & _ & Htell & _) Hin Hw. unfold course_calls in Hin.
  rewrite !in_app_iff in Hin. destruct Hin as [Hin | [Hin | [Hin | Hin]]].
  - rewrite Forall_forall in Hcol. apply Hcol in Hin. destruct e; contradiction.
  - destruct Hchk as [E | (names & _ & [E | E])]; rewrite E in Hin; cbn in Hin;
      intuition; subst; contradiction.
  - destruct (effect_calls_shape (commenting c) cs) as [E | [E | (e' & b & Hb & He & E)]];
      rewrite E in Hin; cbn in Hin.
    + contradiction.
    + destruct Hin as [<- | []]. contradiction.
    + destruct Hin as [<- | [<- | []]]; [contradiction|]. eauto.
  - rewrite Forall_forall in Htell. apply Htell in Hin. destruct e; contradiction.
Qed.

Lemma apply_effect_members (eff : Effect) (cs : list Comment) (c : Comment) :
  In c (apply_effect eff cs) ->
  In c cs \/ exists b, effect_body eff = Some b /\ body c = b.
Proof.
  assert (Hmap : forall i b, In c (map (set_body i b) cs) -> In c cs \/ body c = b).
  { intros i b H. apply in_map_iff in H as (x & <- & Hx). unfold set_body.
    destruct (id x =? i); [now right | now left]. }
  destruct eff as [|b|b]; cbn [apply_effect effect_body]; auto.
  - unfold updated_only. destruct (find is_marker (first_page cs)) as [m|]; auto.
    intros H. destruct (Hmap _ _ H); eauto.
  - unfold upserted. destruct (find is_marker (first_page cs)) as [m|].
    + intros H. destruct (Hmap _ _ H); eauto.
    + intros H. apply in_app_or in H as [H | [<- | []]]; eauto.
Qed.

(** ** What a run writes *)

(** X1.  In both files, whatever the oracles answer and however the run ends:
    every body a run sends with an update or a create starts with the
    sentinel, and every comment of the pull request after the run was
    there before or has a body that starts with the sentinel. *)
Theorem every_written_body_starts_with_sentinel (v : Variant) (env : Env)
    (fuel : nat) (w : World) :
  exists evs,
    trace (snd (run_of v env fuel w)) = trace w ++ evs
    /\ (forall i b, In (UpdateComment i b) evs -> startsWith commentIdentifier b = true)
    /\ (forall b, In (CreateComment b) evs -> startsWith commentIdentifier b = true)
    /\ (forall c, In c (comments (snd (run_of v env fuel w))) ->
          In c (comments w) \/ startsWith commentIdentifier (body c) = true).
Proof.
  destruct (run_of_course v env fuel) as (r & c & Hc & Hrun).
  exists (course_calls c (comments w)). rewrite Hrun. cbn [snd trace comments].
  pose proof Hc as (_ & _ & Hbody & _).
  split; [reflexivity|]. split; [|split].
  - intros i b Hin.
    destruct (course_writes c _ _ Hc Hin I) as (b' & Hb' & [E | (j & E)]);
      [discriminate | injection E as _ <-]. now apply Hbody.
  - intros b Hin.
    destruct (course_writes c _ _ Hc Hin I) as (b' & Hb' & [E | (j & E)]);
      [injection E as <- | discriminate]. now apply Hbody.
  - intros x Hx. destruct (apply_effect_members _ _ _ Hx) as [H | (b & Hb & <-)]; auto.
Qed.

(** ** The order of the calls *)

(** X2.  In both files, whatever the oracles answer and however the run ends,
    the calls of a run come in four stages, in this order: the
    collector's calls (file list, ignore file); at most one child
    process, whose command starts with [npx prettier --check] (never the
    write mode of the remediation command), after which main.ts may read
    its side file; at most one listing of the comments, followed by at
    most one update or create; at most two calls that tell the host how
    the run went. *)
Theorem calls_come_in_four_stages (v : Variant) (env : Env) (fuel : nat) (w : World) :
  exists collect check comment tell,
    trace (snd (run_of v env fuel w)) = trace w ++ collect ++ check ++ comment ++ tell
    /\ Forall collector_event collect
    /\ (check = []
        \/ exists cmd, startsWith (u "npx prettier --check ") cmd = true
             /\ (check = [Exec cmd]
                 \/ check = [Exec cmd; ReadFileSync (u "prettier_output.txt")]))
    /\ (comment = [] \/ comment = [ListComments]
        \/ exists e, write_event e /\ comment = [ListComments; e])
    /\ (check = [] -> forall b, ~ In (CreateComment b) comment)
    /\ Forall outcome_event tell /\ length tell <= 2.
Proof.
  destruct (run_of_course v env fuel) as (r & c & Hc & Hrun).
  exists (collecting c), (checking c), (effect_calls (commenting c) (comments w)), (telling c).
  rewrite Hrun. cbn [snd trace]. destruct Hc as (Hcol & Hchk & _ & Htell & Hlen & Hcreate).
  split; [reflexivity|]. split; [exact Hcol|]. split; [|split; [|split]].
  - destruct Hchk as [E | (names & _ & [E | E])]; [now left | right | right];
      exists (u "npx prettier --check " ++ join (u " ") names);
      (split; [apply startsWith_app | auto]).
  - destruct (effect_calls_shape (commenting c) (comments w))
      as [E | [E | (e & b & _ & He & E)]]; auto.
    right. right. exists e. split; [|exact E].
    destruct He as [-> | (i & ->)]; exact I.
  - intros E b Hin. specialize (Hcreate E).
    destruct (commenting c) as [|b'|b']; cbn [effect_calls] in Hin.
    + contradiction.
    + unfold update_calls in Hin. destruct (find is_marker (first_page (comments w)));
        cbn in Hin; intuition discriminate.
    + now apply (Hcreate b').
  - split; assumption.
Qed.

(** ** The comments a run leaves alone *)

Lemma set_body_other (i : nat) (b : jsstring) (c : Comment) :
  id c <> i -> set_body i b c = c.
Proof. intros H. unfold set_body. apply Nat.eqb_neq in H. now rewrite H. Qed.

(** After the update the marker found first is the updated one. *)
Lemma find_after_update (cs : list Comment) (c : Comment) (b : jsstring) :
  NoDup (map id cs) ->
  find is_marker cs = Some c ->
  includes b commentIdentifier = true ->
  find is_marker (map (set_body (id c) b) cs) = Some (mkComment (id c) b).
Proof.
  induction cs as [|x cs IH]; intros Hnd Hfind Hb; [discriminate|].
  inversion Hnd as [|? ? Hnotin Hnd']; subst. cbn [find map] in *.
  destruct (is_marker x) eqn:Ex.
  - injection Hfind as <-. rewrite set_body_self. unfold is_marker. cbn [body].
    now rewrite Hb.
  - assert (Hid : id x <> id c).
    { intros E. apply Hnotin. rewrite E. apply in_map.
      now apply find_is_marker_In in Hfind. }
    rewrite (set_body_other _ _ _ Hid), Ex. now apply IH.
Qed.

Lemma set_body_twice (i : nat) (b : jsstring) (cs : list Comment) :
  map (set_body i b) (map (set_body i b) cs) = map (set_body i b) cs.
Proof.
  rewrite map_map. apply map_ext. intros c. unfold set_body.
  destruct (id c =? i) eqn:E; cbn [id]; now rewrite E.
Qed.

Lemma find_app_none (cs : list Comment) (c : Comment) :
  find is_marker cs = None -> is_marker c = true -> find is_marker (cs ++ [c]) = Some c.
Proof.
  induction cs as [|x cs IH]; cbn [find app]; intros Hnone Hc.
  - now rewrite Hc.
  - destruct (is_marker x); [discriminate | now apply IH].
Qed.

(** Doing to the comments twice what a run does to them is doing it
    once, when the marker is in reach. *)
Lemma apply_effect_twice (eff : Effect) (cs : list Comment) :
  NoDup (map id cs) ->
  marker_in_reach cs ->
  (forall b, effect_body eff = Some b -> startsWith commentIdentifier b = true) ->
  apply_effect eff (apply_effect eff cs) = apply_effect eff cs.
Proof.
  intros Hnd Hreach Hbody.
  assert (Hupd : forall b c, includes b commentIdentifier = true ->
            find is_marker (first_page cs) = Some c ->
            forall cs', cs' = map (set_body (id c) b) cs ->
            find is_marker (first_page cs') = Some (mkComment (id c) b)
            /\ map (set_body (id c) b) cs' = cs').
  { intros b c Hb Hc cs' ->. split; [|apply set_body_twice].
    rewrite first_page_map.
    now apply find_after_update; [apply first_page_NoDup | |]. }
  destruct eff as [|b|b]; cbn [apply_effect effect_body] in *; [reflexivity| |].
  - assert (Hb : includes b commentIdentifier = true)
      by (apply startsWith_includes; now apply Hbody).
    destruct (find is_marker (first_page cs)) as [c|] eqn:Ec.
    + assert (E1 : updated_only b cs = map (set_body (id c) b) cs)
        by (unfold updated_only; now rewrite Ec).
      destruct (Hupd b c Hb eq_refl _ eq_refl) as (Hf & Hm).
      rewrite E1. unfold updated_only. rewrite Hf. exact Hm.
    + assert (E1 : updated_only b cs = cs) by (unfold updated_only; now rewrite Ec).
      now rewrite !E1.
  - assert (Hb : includes b commentIdentifier = true)
      by (apply startsWith_includes; now apply Hbody).
    destruct (find is_marker (first_page cs)) as [c|] eqn:Ec.
    + assert (E1 : upserted b cs = map (set_body (id c) b) cs)
        by (unfold upserted; now rewrite Ec).
      destruct (Hupd b c Hb eq_refl _ eq_refl) as (Hf & Hm).
      rewrite E1. unfold upserted. rewrite Hf. exact Hm.
    + assert (E1 : upserted b cs = cs ++ [mkComment (fresh_id cs) b])
        by (unfold upserted; now rewrite Ec).
      assert (Hlen : length cs < 30).
      { destruct Hreach as [H | H]; [exact H|].
        rewrite (marker_count_none _ Ec) in H. lia. }
      rewrite first_page_short in Ec by lia.
      rewrite E1. unfold upserted.
      rewrite first_page_short by (rewrite length_app; simpl; lia).
      rewrite (find_app_none cs (mkComment (fresh_id cs) b) Ec) by exact Hb.
      rewrite map_app. cbn [map]. rewrite set_body_self. cbn [id].
      f_equal. transitivity (map (fun x : Comment => x) cs); [|apply map_id].
      apply map_ext_in. intros x Hx.
      apply set_body_other. intros E. apply (fresh_id_is_new cs). rewrite <- E.
      now apply in_map.
Qed.

(** What a run does to the comments keeps every comment but the first
    marker as it is and where it is, and adds at most one at the end. *)
Lemma apply_effect_frame (eff : Effect) (cs : list Comment) :
  NoDup (map id cs) ->
  (forall c, In c cs -> find is_marker cs <> Some c -> In c (apply_effect eff cs))
  /\ exists added, map id (apply_effect eff cs) = map id cs ++ added
                   /\ length added <= 1.
Proof.
  intros Hnd.
  assert (Hkeep : forall m b c, find is_marker cs = Some m -> In c cs ->
            find is_marker cs <> Some c -> In c (map (set_body (id m) b) cs)).
  { intros m b c Hm Hc Hnot. apply in_map_iff. exists c. split; [|exact Hc].
    apply set_body_other. intros E. apply Hnot. rewrite Hm. f_equal.
    apply find_is_marker_In in Hm as [Hm _].
    symmetry. now apply (NoDup_ids_inj cs c m Hnd Hc Hm). }
  destruct eff as [|b|b]; cbn [apply_effect].
  - split; [auto|]. exists []. rewrite app_nil_r. split; [reflexivity | simpl; lia].
  - unfold updated_only. destruct (find is_marker (first_page cs)) as [m|] eqn:Em.
    + apply find_first_page in Em.
      split; [intros c Hc Hnot; now apply (Hkeep m b c)|].
      exists []. rewrite app_nil_r, ids_set_body. split; [reflexivity | simpl; lia].
    + split; [auto|]. exists []. rewrite app_nil_r. split; [reflexivity | simpl; lia].
  - unfold upserted. destruct (find is_marker (first_page cs)) as [m|] eqn:Em.
    + apply find_first_page in Em.
      split; [intros c Hc Hnot; now apply (Hkeep m b c)|].
      exists []. rewrite app_nil_r, ids_set_body. split; [reflexivity | simpl; lia].
    + split; [intros c Hc _; apply in_or_app; now left|].
      exists [fresh_id cs]. rewrite map_app. split; [reflexivity | simpl; lia].
Qed.

(** X3.  In both files, on a pull request whose comments have distinct ids, a
    run, however it ends, deletes no comment and moves none: the ids
    after the run are the ids before it, in the same order, with at most
    one new id at the end; and every comment other than the first one
    that carries the sentinel is after the run what it was before.  A
    comment written by a person is never touched. *)
Theorem run_leaves_other_comments_alone (v : Variant) (env : Env) (fuel : nat)
    (w : World) :
  NoDup (map id (comments w)) ->
  (forall c, In c (comments w) -> find is_marker (comments w) <> Some c ->
             In c (comments (snd (run_of v env fuel w))))
  /\ (forall c, In c (comments w) -> is_marker c = false ->
                In c (comments (snd (run_of v env fuel w))))
  /\ exists added,
       map id (comments (snd (run_of v env fuel w))) = map id (comments w) ++ added
       /\ length added <= 1.
Proof.
  intros Hnd. destruct (run_of_course v env fuel) as (r & c & Hc & Hrun).
  rewrite Hrun. cbn [snd comments].
  destruct (apply_effect_frame (commenting c) (comments w) Hnd) as (Hkeep & Hids).
  split; [exact Hkeep|]. split; [|exact Hids].
  intros x Hx Hnot. apply Hkeep; [exact Hx|].
  intros Hfind. apply find_is_marker_In in Hfind as [_ Hm]. congruence.
Qed.

Lemma run_leaves_other_comments_alone_witness :
  let w' := snd (run_of complete (demo_env pr_files check_fails) 3 two_comments) in
  In (mkComment 7 (u "LGTM")) (comments w')
  /\ exists added, map id (comments w') = [7; 9] ++ added /\ length added <= 1.
Proof.
  intros w'.
  destruct (run_leaves_other_comments_alone complete (demo_env pr_files check_fails) 3
              two_comments) as (_ & Hhuman & Hids).
  - repeat constructor; simpl; intuition discriminate.
  - split; [|exact Hids]. apply Hhuman; [now left | reflexivity].
Defined.

(** ** Running again *)

(** X4.  In both files, on a pull request whose comments have distinct
    ids and whose marker is in reach of the one page of comments a run
    lists (fewer than 30 comments, or a comment with the sentinel among
    the first 30): a second run with the same oracles, however the runs
    end, leaves the comments exactly as the first run left them. *)
Theorem second_run_changes_no_comment (v : Variant) (env : Env) (fuel : nat)
    (w : World) :
  NoDup (map id (comments w)) ->
  marker_in_reach (comments w) ->
  comments (snd (run_of v env fuel (snd (run_of v env fuel w))))
  = comments (snd (run_of v env fuel w)).
Proof.
  intros Hnd Hreach. destruct (run_of_course v env fuel) as (r & c & Hc & Hrun).
  rewrite !Hrun. cbn [snd comments].
  destruct Hc as (_ & _ & Hbody & _). now apply apply_effect_twice.
Qed.

Lemma second_run_changes_no_comment_witness :
  let env := demo_env pr_files check_fails in
  comments (snd (run_of minimal env 3 (snd (run_of minimal env 3 two_comments))))
  = comments (snd (run_of minimal env 3 two_comments))
  /\ comments (snd (run_of complete env 3 (snd (run_of complete env 3 no_comments))))
     = [mkComment 1 (Complete.failBody (trim stderr_two_files))].
Proof.
  intros env. split.
  - apply (second_run_changes_no_comment minimal env 3 two_comments).
    + repeat constructor; simpl; intuition discriminate.
    + left. vm_compute. lia.
  - rewrite (second_run_changes_no_comment complete env 3 no_comments);
      [vm_compute; reflexivity | constructor | left; vm_compute; lia].
Defined.

(** Without the marker in reach the second run does change the
    comments: on a pull request with 30 comments by people and none by
    the bot, each run of part_000 that finds unformatted files adds a
    comment of its own. *)
Example busy_pull_request_gets_a_comment_per_run :
  let env := demo_env pr_files check_fails in
  let w1 := snd (Complete.run env 3 thirty_comments) in
  let w2 := snd (Complete.run env 3 w1) in
  ~ marker_in_reach (comments thirty_comments)
  /\ length (comments w1) = 31 /\ length (comments w2) = 32.
Proof.
  intros env w1 w2. split; [|split; vm_compute; reflexivity].
  intros [H | H]; vm_compute in H; lia.
Qed.

(** ** An endpoint that never runs dry *)

Lemma loops_never_leave (env : Env) :
  (forall page, listFiles env 100 page <> []) ->
  forall fuel page acc w,
    Complete.getAllChangedFiles_loop env fuel page acc w
    = (OutOfFuel, add_events w (map (ListFiles 100) (seq page fuel)))
    /\ forall acc', Minimal.getAllChangedFiles_loop env fuel page acc' w
       = (OutOfFuel, add_events w (map (ListFiles 100) (seq page fuel))).
Proof.
  intros Hne. induction fuel as [|fuel IH]; intros page acc w.
  - cbn. rewrite add_events_nil. auto.
  - destruct (listFiles env 100 page) as [|f fs] eqn:E; [now apply Hne in E|].
    split; [|intros acc'].
    + cbn [Complete.getAllChangedFiles_loop].
      rewrite (bind_Ret _ _ _ _ _ (pulls_listFiles_run env 100 page w)), E.
      cbn [length Nat.eqb seq map].
      destruct (IH (S page)
                  (acc ++ map filename
                     (filter (fun f => negb (str_eqb (status f) (u "removed"))) (f :: fs)))
                  (add_events w [ListFiles 100 page])) as (H & _).
      etransitivity; [exact H|]. now rewrite add_events_app.
    + cbn [Minimal.getAllChangedFiles_loop].
      rewrite (bind_Ret _ _ _ _ _ (pulls_listFiles_run env 100 page w)), E.
      cbn [length Nat.eqb seq map].
      destruct (IH (S page) acc (add_events w [ListFiles 100 page])) as (_ & H).
      etransitivity; [exact (H (acc' ++ map filename (f :: fs)))|].
      now rewrite add_events_app.
Qed.

(** X5.  In both files the loop over the pages has no bound of its own: if the
    endpoint never answers with an empty page, then whatever the number
    of turns allowed, the run is still asking for the next page when they
    are used up; it has asked for pages 1, 2, 3, ... in turn and has
    started no child process and touched no comment. *)
Theorem endless_pages_never_end (v : Variant) (env : Env) (fuel : nat) (w : World) :
  (forall page, listFiles env 100 page <> []) ->
  run_of v env fuel w
  = (OutOfFuel, add_events w (map (ListFiles 100) (seq 1 fuel))).
Proof.
  intros Hne.
  destruct (loops_never_leave env Hne fuel 1 [] w) as (Hc & Hm).
  destruct v; cbn [run_of].
  - unfold Complete.run, Complete.changeSet, Complete.getAllChangedFiles, bind.
    now rewrite Hc.
  - unfold Minimal.run, Minimal.changeSet, Minimal.getAllChangedFiles, bind.
    now rewrite (Hm []).
Qed.

Lemma endless_pages_never_end_witness :
  run_of complete endless_env 5 two_comments
  = (OutOfFuel,
     add_events two_comments
       [ListFiles 100 1; ListFiles 100 2; ListFiles 100 3; ListFiles 100 4;
        ListFiles 100 5]).
Proof.
  apply (endless_pages_never_end complete endless_env 5 two_comments).
  intros page. discriminate.
Defined.

(** ** The change set *)

Lemma endsWith_spec (s p : jsstring) :
  endsWith s p = true <-> exists stem, s = stem ++ p.
Proof.
  unfold endsWith. rewrite startsWith_spec. split.
  - intros (r & E). exists (rev r).
    rewrite <- (rev_involutive s), E, rev_app_distr, rev_involutive. reflexivity.
  - intros (stem & ->). exists (rev stem). apply rev_app_distr.
Qed.

(** The regular expression of line 40 (line 32 in main.ts): a name
    passes exactly when it is some text, a dot, and one of the
    extensions, with nothing after it. *)
Lemma test_extension_spec (exts : list jsstring) (f : jsstring) :
  test_extension exts f = true
  <-> exists stem e, In e exts /\ f = stem ++ u "." ++ e.
Proof.
  unfold test_extension. rewrite existsb_exists. split.
  - intros (e & He & H). apply endsWith_spec in H as (stem & ->). now exists stem, e.
  - intros (stem & e & He & ->). exists e. split; [exact He|].
    apply endsWith_spec. now exists stem.
Qed.

(** X6.  In both files the change set is the collected list with some names
    left out: order and repetitions are kept.  A name stays exactly when
    it is some text, a dot and one of the extensions of the file's list,
    with nothing after the extension, and the ignore rules do not take
    it out. *)
Theorem change_set_is_the_filtered_collection (v : Variant) (env : Env) (fuel : nat)
    (w w1 : World) (cs : list jsstring) :
  changeSet_of v env fuel w = (Ret cs, w1) ->
  exists names w0 keep,
    getAllChangedFiles_of v env fuel w = (Ret names, w0)
    /\ cs = filter keep names
    /\ forall f, keep f = true
         <-> (exists stem e, In e (extensions_of v) /\ f = stem ++ u "." ++ e)
             /\ ~ ignored_by v env f.
Proof.
  intros H.
  assert (Hff : forall (p q : jsstring -> bool) (l : list jsstring),
             filter q (filter p l) = filter (fun f => p f && q f) l).
  { intros p q l. induction l as [|f l IH]; [reflexivity|]. cbn [filter].
    destruct (p f); cbn [filter andb]; [destruct (q f)|]; now rewrite IH. }
  destruct v; cbn [changeSet_of getAllChangedFiles_of extensions_of ignored_by] in *.
  - destruct (changeSet_Ret env fuel w w1 cs H)
      as (names & w0 & E & [(Hex & ->) | (Hex & content & Hrd & Hkept)]).
    + exists names, w0, (test_extension Complete.extensions).
      split; [exact E|]. split; [reflexivity|].
      intros f. rewrite test_extension_spec. split; [|tauto].
      intros Hext. split; [exact Hext|]. intros (Hyes & _). congruence.
    + apply unignored_Some in Hkept as (_ & ->).
      exists names, w0,
        (fun f => test_extension Complete.extensions f
                  && match ignores env content f with Some true => false | _ => true end).
      split; [exact E|]. split; [apply Hff|].
      intros f. rewrite andb_true_iff, test_extension_spec.
      split; intros [Hext Hign]; (split; [exact Hext|]).
      * intros (_ & content' & Hrd' & Hyes).
        assert (content' = content) by congruence. subst content'.
        rewrite Hyes in Hign. discriminate.
      * destruct (ignores env content f) as [[|]|] eqn:Ei; try reflexivity.
        exfalso. apply Hign. split; [exact Hex|]. now exists content.
  - unfold Minimal.changeSet in H.
    destruct (Minimal.getAllChangedFiles env fuel w) as [[names| e |] w0] eqn:E;
      unfold bind in H; rewrite E in H; try discriminate.
    injection H as <- _. exists names, w0, (test_extension Minimal.extensions).
    split; [reflexivity|]. split; [reflexivity|].
    intros f. rewrite test_extension_spec. tauto.
Qed.

Lemma change_set_is_the_filtered_collection_witness :
  exists names w0 keep,
    getAllChangedFiles_of complete (ignoring_env pr_files check_passes) 3 no_comments
    = (Ret names, w0)
    /\ [u "a.ts"] = filter keep names
    /\ forall f, keep f = true
         <-> (exists stem e, In e (extensions_of complete) /\ f = stem ++ u "." ++ e)
             /\ ~ ignored_by complete (ignoring_env pr_files check_passes) f.
Proof.
  apply (change_set_is_the_filtered_collection complete
           (ignoring_env pr_files check_passes) 3 no_comments
           (add_events no_comments [ListFiles 100 1; ListFiles 100 2;
                                    ExistsSync (u ".prettierignore");
                                    ReadFileSync (u ".prettierignore")])).
  vm_compute. reflexivity.
Defined.

(** X7.  Every extension of main.ts's list is in part_000's list: a name that
    main.ts lets through for its extension, part_000 lets through for
    its extension too. *)
Theorem minimal_extensions_are_complete_extensions (f : jsstring) :
  test_extension Minimal.extensions f = true ->
  test_extension Complete.extensions f = true.
Proof.
  rewrite !test_extension_spec. intros (stem & e & He & ->). exists stem, e.
  split; [|reflexivity]. cbn in He. cbn.
  repeat (destruct He as [<- | He]; [tauto|]). contradiction.
Qed.

Lemma minimal_extensions_are_complete_extensions_witness :
  test_extension Complete.extensions (u "src/app.tsx") = true.
Proof.
  apply (minimal_extensions_are_complete_extensions (u "src/app.tsx")).
  vm_compute. reflexivity.
Defined.

(** ** The ignore file *)

(** X8.  part_000 reads the ignore file without a guard (line 44): when the
    file exists and cannot be read, the run ends with the exception of
    [readFileSync] right after the collection, whatever was collected: no
    child process is started, the comments are not listed and none is
    written. *)
Theorem unreadable_ignore_file_stops_the_run (env : Env) (fuel : nat) (w w0 : World)
    (names : list jsstring) :
  Complete.getAllChangedFiles env fuel w = (Ret names, w0) ->
  existsSync env (getInput env (u "prettier-ignore")) = true ->
  readFileSync env (getInput env (u "prettier-ignore")) = None ->
  Complete.run env fuel w
  = (Throw (u "ENOENT: no such file or directory"),
     add_events w0 [ExistsSync (getInput env (u "prettier-ignore"));
                    ReadFileSync (getInput env (u "prettier-ignore"))]).
Proof.
  intros Hget Hex Hrd.
  unfold Complete.run, Complete.changeSet, bind at 1 2. rewrite Hget.
  unfold fs_existsSync, fs_readFileSync, bind, emit, ret, throw. simpl.
  rewrite Hex. simpl. rewrite Hrd. world_eq.
Qed.

Lemma unreadable_ignore_file_stops_the_run_witness :
  Complete.run (unreadable_env pr_files) 3 two_comments
  = (Throw (u "ENOENT: no such file or directory"),
     add_events (add_events two_comments [ListFiles 100 1; ListFiles 100 2])
       [ExistsSync (u ".prettierignore"); ReadFileSync (u ".prettierignore")]).
Proof.
  apply (unreadable_ignore_file_stops_the_run (unreadable_env pr_files) 3 two_comments
           (add_events two_comments [ListFiles 100 1; ListFiles 100 2])
           [u "a.ts"; u "b.png"; u "c d.md"]);
    vm_compute; reflexivity.
Defined.

Lemma unignored_refused (test : jsstring -> option bool) (files : list jsstring)
    (f : jsstring) :
  In f files -> test f = None -> Complete.unignored test files = None.
Proof.
  induction files as [|x files IH]; simpl; intros Hin Hf; [contradiction|].
  destruct Hin as [-> | Hin]; [now rewrite Hf|].
  destruct (test x); [|reflexivity]. now rewrite IH.
Qed.

(** X13.  part_000 calls the matcher without a guard too (line 44): when
    the ignore file was read and the matcher refuses one of the
    collected names that passed the extension test, the run ends with
    an exception right after the ignore file was read: no child process
    is started, the comments are not listed and none is written. *)
Theorem refused_name_stops_the_run (env : Env) (fuel : nat) (w w0 : World)
    (names : list jsstring) (content f : jsstring) :
  Complete.getAllChangedFiles env fuel w = (Ret names, w0) ->
  existsSync env (getInput env (u "prettier-ignore")) = true ->
  readFileSync env (getInput env (u "prettier-ignore")) = Some content ->
  In f names ->
  test_extension Complete.extensions f = true ->
  ignores env content f = None ->
  exists e,
    Complete.run env fuel w
    = (Throw e,
       add_events w0 [ExistsSync (getInput env (u "prettier-ignore"));
                      ReadFileSync (getInput env (u "prettier-ignore"))]).
Proof.
  intros Hget Hex Hrd Hin Hext Hno.
  assert (Hnone : Complete.unignored (ignores env content)
                    (filter (test_extension Complete.extensions) names) = None).
  { apply (unignored_refused _ _ f); [|exact Hno]. now apply filter_In. }
  eexists.
  unfold Complete.run, Complete.changeSet, bind at 1 2. rewrite Hget.
  unfold fs_existsSync, fs_readFileSync, bind, emit, ret, throw. simpl.
  rewrite Hex. simpl. rewrite Hrd. simpl. rewrite Hnone. world_eq.
Qed.

Lemma refused_name_stops_the_run_witness :
  exists e,
    Complete.run (ignoring_env pr_dot_slash check_passes) 3 two_comments
    = (Throw e,
       add_events (add_events two_comments [ListFiles 100 1; ListFiles 100 2])
         [ExistsSync (u ".prettierignore"); ReadFileSync (u ".prettierignore")]).
Proof.
  apply (refused_name_stops_the_run (ignoring_env pr_dot_slash check_passes) 3 two_comments
           (add_events two_comments [ListFiles 100 1; ListFiles 100 2])
           [u "./a.ts"] (u "*.md") (u "./a.ts"));
    try (vm_compute; reflexivity).
  now left.
Defined.

(** ** The files a run reads *)

Lemma loops_list_only (env : Env) (fuel : nat) :
  forall page acc acc',
  exists evs, Forall lists_files evs
    /\ (exists r, forall w,
          Complete.getAllChangedFiles_loop env fuel page acc w = (r, add_events w evs))
    /\ (exists r, forall w,
          Minimal.getAllChangedFiles_loop env fuel page acc' w = (r, add_events w evs)).
Proof.
  induction fuel as [|fuel IH]; intros page acc acc'.
  - exists []. split; [constructor|].
    split; exists OutOfFuel; intros w; now rewrite add_events_nil.
  - destruct (listFiles env 100 page) as [|f fs] eqn:Epage.
    + exists [ListFiles 100 page]. split; [repeat constructor|].
      split; eexists; intros w; cbn [Complete.getAllChangedFiles_loop
                                       Minimal.getAllChangedFiles_loop];
        rewrite (bind_Ret _ _ _ _ _ (pulls_listFiles_run env 100 page w)), Epage;
        reflexivity.
    + destruct (IH (S page)
                  (acc ++ map filename
                     (filter (fun f => negb (str_eqb (status f) (u "removed"))) (f :: fs)))
                  (acc' ++ map filename (f :: fs)))
        as (evs & Hevs & (r1 & H1) & (r2 & H2)).
      exists (ListFiles 100 page :: evs). split; [constructor; [exact I | exact Hevs]|].
      split; [exists r1 | exists r2]; intros w;
        cbn [Complete.getAllChangedFiles_loop Minimal.getAllChangedFiles_loop];
        rewrite (bind_Ret _ _ _ _ _ (pulls_listFiles_run env 100 page w)), Epage;
        cbn [length Nat.eqb];
        (etransitivity; [first [exact (H1 _) | exact (H2 _)]|]);
        now rewrite add_events_app.
Qed.

Lemma lists_files_no_read (evs : list Event) (q : jsstring) :
  Forall lists_files evs -> ~ In (ReadFileSync q) evs.
Proof.
  intros H Hin. rewrite Forall_forall in H. exact (H _ Hin).
Qed.

(** The calls of the collector and of the filters, and the one file they
    may read. *)
Lemma changeSet_of_reads (v : Variant) (env : Env) (fuel : nat) :
  exists r evs,
    (forall w, changeSet_of v env fuel w = (r, add_events w evs))
    /\ forall q, In (ReadFileSync q) evs ->
         v = complete
         /\ q = getInput env (u "prettier-ignore") /\ existsSync env q = true.
Proof.
  destruct (loops_list_only env fuel 1 [] []) as (evs & Hevs & (r1 & H1) & (r2 & H2)).
  destruct v; cbn [changeSet_of].
  - unfold Complete.changeSet, Complete.getAllChangedFiles.
    set (path := getInput env (u "prettier-ignore")).
    destruct r1 as [names| e |].
    + destruct (existsSync env path) eqn:Eex.
      * exists (match readFileSync env path with
                | Some content =>
                    match Complete.unignored (ignores env content)
                            (filter (test_extension Complete.extensions) names) with
                    | Some kept => Ret kept
                    | None =>
                        Throw (u "RangeError: path should be a `path.relative()`d string")
                    end
                | None => Throw (u "ENOENT: no such file or directory")
                end), (evs ++ [ExistsSync path; ReadFileSync path]).
        split.
        -- intros w. rewrite (bind_Ret _ _ _ _ _ (H1 w)).
           unfold fs_existsSync, fs_readFileSync, bind, emit, ret, throw. simpl.
           fold path. rewrite Eex. simpl. fold path.
           destruct (readFileSync env path); [|world_eq].
           simpl. destruct (Complete.unignored _ _); world_eq.
        -- intros q Hq. apply in_app_or in Hq as [Hq | Hq].
           ++ now apply lists_files_no_read in Hq.
           ++ destruct Hq as [Hq | [Hq | []]]; [discriminate|].
              injection Hq as <-. auto.
      * exists (Ret (filter (test_extension Complete.extensions) names)),
          (evs ++ [ExistsSync path]).
        split.
        -- intros w. rewrite (bind_Ret _ _ _ _ _ (H1 w)).
           unfold fs_existsSync, bind, emit, ret. simpl. fold path. rewrite Eex.
           world_eq.
        -- intros q Hq. apply in_app_or in Hq as [Hq | Hq].
           ++ now apply lists_files_no_read in Hq.
           ++ destruct Hq as [Hq | []]. discriminate.
    + exists (Throw e), evs. split; [intros w; unfold bind; now rewrite H1|].
      intros q Hq. now apply lists_files_no_read in Hq.
    + exists OutOfFuel, evs. split; [intros w; unfold bind; now rewrite H1|].
      intros q Hq. now apply lists_files_no_read in Hq.
  - unfold Minimal.changeSet, Minimal.getAllChangedFiles.
    exists (match r2 with
            | Ret names => Ret (filter (test_extension Minimal.extensions) names)
            | Throw e => Throw e
            | OutOfFuel => OutOfFuel
            end), evs.
    split; [intros w; unfold bind; rewrite H2; now destruct r2|].
    intros q Hq. now apply lists_files_no_read in Hq.
Qed.

(** What follows the change set, and the one file that may be read
    then: the side file of main.ts, after a check that exited with 0 and
    printed the phrase. *)
Lemma run_of_after_changeSet (v : Variant) (env : Env) (fuel : nat) (w w1 : World)
    (r : Result (list jsstring)) :
  changeSet_of v env fuel w = (r, w1) ->
  exists rest,
    trace (snd (run_of v env fuel w)) = trace w1 ++ rest
    /\ forall q, In (ReadFileSync q) rest ->
         v = minimal /\ q = u "prettier_output.txt"
         /\ exists cs out errout,
              r = Ret cs
              /\ exec env (Minimal.checkCommand cs) = inl (out, errout)
              /\ includes out (u "Run Prettier to fix") = true.
Proof.
  intros H.
  assert (Hupd : forall b cs q, ~ In (ReadFileSync q) (ListComments :: update_calls b cs)).
  { intros b cs q. unfold update_calls. destruct (find is_marker (first_page cs)); simpl;
      intuition discriminate. }
  assert (Hups : forall b cs q, upsert_call b cs <> ReadFileSync q).
  { intros b cs q. unfold upsert_call. destruct (find is_marker (first_page cs)); discriminate. }
  destruct r as [cs| e |].
  - destruct cs as [|f cs].
    + exists (ListComments :: update_calls pass_message (comments w1)).
      split; [|intros q Hq; now apply Hupd in Hq].
      destruct v; cbn [changeSet_of run_of] in *;
        [rewrite (run_empty env fuel w w1 H) | rewrite (minimal_run_empty env fuel w w1 H)];
        reflexivity.
    + assert (Hne : f :: cs <> []) by discriminate.
      destruct v; cbn [changeSet_of run_of] in *.
      * pose proof (run_nonempty env fuel w w1 (f :: cs) H Hne) as R. cbv zeta in R.
        rewrite R. eexists. split; [reflexivity|].
        intros q Hq. exfalso. cbn [app In] in Hq.
        destruct Hq as [Hq | [Hq | [Hq | Hq]]]; try discriminate.
        -- now apply Hups in Hq.
        -- unfold verdict_calls in Hq. destruct (Complete.err _); simpl in Hq;
             intuition discriminate.
      * destruct (exec env (Minimal.checkCommand (f :: cs))) as [[out errout]|error] eqn:Ex.
        -- destruct (includes out (u "Run Prettier to fix")) eqn:Eph.
           ++ destruct (readFileSync env (u "prettier_output.txt")) as [text|] eqn:Erd.
              ** rewrite (minimal_run_warnings env fuel w w1 (f :: cs) out errout text
                            H Hne Ex Eph Erd).
                 eexists. split; [reflexivity|].
                 intros q Hq. cbn [In] in Hq.
                 destruct Hq as [Hq | [Hq | [Hq | [Hq | []]]]]; try discriminate.
                 --- injection Hq as <-. split; [reflexivity|]. split; [reflexivity|].
                     now exists (f :: cs), out, errout.
                 --- now apply Hups in Hq.
              ** rewrite (minimal_run_missing_file env fuel w w1 (f :: cs) out errout
                            H Hne Ex Eph Erd).
                 eexists. split; [reflexivity|].
                 intros q Hq. cbn [In] in Hq.
                 destruct Hq as [Hq | [Hq | []]]; try discriminate.
                 injection Hq as <-. split; [reflexivity|]. split; [reflexivity|].
                 now exists (f :: cs), out, errout.
           ++ rewrite (minimal_run_pass env fuel w w1 (f :: cs) out errout H Hne Ex Eph).
              eexists. split; [reflexivity|].
              intros q Hq. exfalso. cbn [In] in Hq.
              destruct Hq as [Hq | [Hq | [Hq | [Hq | []]]]]; try discriminate.
              now apply Hups in Hq.
        -- rewrite (minimal_nonzero_exit_aborts env fuel w w1 (f :: cs) error H Hne Ex).
           eexists. split; [reflexivity|].
           intros q Hq. exfalso. cbn [In] in Hq. intuition discriminate.
  - exists []. split; [|intros q []].
    destruct v; cbn [changeSet_of run_of] in *;
      unfold Complete.run, Minimal.run, bind; rewrite H; cbn; now rewrite app_nil_r.
  - exists []. split; [|intros q []].
    destruct v; cbn [changeSet_of run_of] in *;
      unfold Complete.run, Minimal.run, bind; rewrite H; cbn; now rewrite app_nil_r.
Qed.

(** X9.  A run reads no file but its own.  part_000 reads the ignore file named
    by its input, and only when that file exists; main.ts reads
    [prettier_output.txt], and only after a check of the change set that
    exited with 0 and printed the phrase. *)
Theorem run_reads_only_its_own_file (v : Variant) (env : Env) (fuel : nat) (w : World) :
  exists evs,
    trace (snd (run_of v env fuel w)) = trace w ++ evs
    /\ (forall q, In (ReadFileSync q) evs ->
          match v with
          | complete =>
              q = getInput env (u "prettier-ignore") /\ existsSync env q = true
          | minimal =>
              q = u "prettier_output.txt"
              /\ exists cs w1 out errout,
                   changeSet_of minimal env fuel w = (Ret cs, w1)
                   /\ exec env (Minimal.checkCommand cs) = inl (out, errout)
                   /\ includes out (u "Run Prettier to fix") = true
          end).
Proof.
  destruct (changeSet_of_reads v env fuel) as (r & evs0 & Hcs & Hreads0).
  destruct (run_of_after_changeSet v env fuel w _ r (Hcs w)) as (rest & Htrace & Hrest).
  exists (evs0 ++ rest). split.
  - rewrite Htrace. cbn [add_events trace]. now rewrite app_assoc.
  - intros q Hq. apply in_app_or in Hq as [Hq | Hq].
    + destruct (Hreads0 q Hq) as (-> & Hpath & Hex). auto.
    + destruct (Hrest q Hq) as (-> & -> & cs & out & errout & -> & Hex & Hph).
      split; [reflexivity|]. exists cs, (add_events w evs0), out, errout. auto.
Qed.

(** ** How a run of main.ts ends *)

(** X10.  With something to check, main.ts returns normally in one case only:
    the check exited with 0 and did not print the phrase.  Every other
    run ends in an exception: of [execSync] for a non-zero exit, of
    [readFileSync] for a missing side file, of line 103 otherwise. *)
Theorem main_ts_returns_only_on_a_clean_check (env : Env) (fuel : nat) (w w1 : World)
    (cs : list jsstring) :
  Minimal.changeSet env fuel w = (Ret cs, w1) ->
  cs <> [] ->
  fst (Minimal.run env fuel w) = Ret tt
  <-> exists out errout,
        exec env (Minimal.checkCommand cs) = inl (out, errout)
        /\ includes out (u "Run Prettier to fix") = false.
Proof.
  intros H Hne.
  destruct (exec env (Minimal.checkCommand cs)) as [[out errout]|error] eqn:Ex.
  - destruct (includes out (u "Run Prettier to fix")) eqn:Eph.
    + destruct (readFileSync env (u "prettier_output.txt")) as [text|] eqn:Erd.
      * rewrite (minimal_run_warnings env fuel w w1 cs out errout text H Hne Ex Eph Erd).
        split; [discriminate|]. intros (out' & errout' & [= <- <-] & Hno). congruence.
      * rewrite (minimal_run_missing_file env fuel w w1 cs out errout H Hne Ex Eph Erd).
        split; [discriminate|]. intros (out' & errout' & [= <- <-] & Hno). congruence.
    + rewrite (minimal_run_pass env fuel w w1 cs out errout H Hne Ex Eph).
      split; [|reflexivity]. intros _. now exists out, errout.
  - rewrite (minimal_nonzero_exit_aborts env fuel w w1 cs error H Hne Ex).
    split; [discriminate|]. intros (out & errout & [=] & _).
Qed.

Lemma main_ts_returns_only_on_a_clean_check_witness :
  fst (Minimal.run (demo_env pr_one_file check_passes) 3 no_comments) = Ret tt
  <-> exists out errout,
        exec (demo_env pr_one_file check_passes) (Minimal.checkCommand [u "a.ts"])
        = inl (out, errout)
        /\ includes out (u "Run Prettier to fix") = false.
Proof.
  apply (main_ts_returns_only_on_a_clean_check (demo_env pr_one_file check_passes) 3
           no_comments (add_events no_comments [ListFiles 100 1; ListFiles 100 2])
           [u "a.ts"]).
  - vm_compute. reflexivity.
  - discriminate.
Defined.

(** ** The failure comment *)

Ltac find_part :=
  repeat first [apply includes_prefix | apply includes_skip].

Lemma failBody_shows (out : jsstring) :
  includes (Complete.failBody out) (trim out) = true
  /\ includes (Complete.failBody out) (Complete.prettierCommand out) = true.
Proof. unfold Complete.failBody. split; find_part. Qed.

Lemma minimal_failBody_shows (out : jsstring) :
  includes (Minimal.failBody out) (trim out) = true
  /\ includes (Minimal.failBody out) (Minimal.prettierCommand out) = true.
Proof. unfold Minimal.failBody. split; find_part. Qed.

Lemma prettierCommand_trim (out : jsstring) :
  Complete.prettierCommand (trim out) = Complete.prettierCommand out.
Proof.
  unfold Complete.prettierCommand, Complete.offendingFiles. now rewrite trim_idem.
Qed.

(** X11.  Whenever a check leads to a failure comment, the comment is on the
    pull request after the run: it starts with the sentinel, shows the
    trimmed diagnostic text as it is, and shows the remediation
    command. *)
Theorem failure_comment_shows_text_and_command (v : Variant) (env : Env) (fuel : nat)
    (w w1 : World) (cs : list jsstring) (text : jsstring) :
  changeSet_of v env fuel w = (Ret cs, w1) ->
  cs <> [] ->
  reported_text v env cs = Some text ->
  exists c,
    In c (comments (snd (run_of v env fuel w)))
    /\ startsWith commentIdentifier (body c) = true
    /\ includes (body c) (trim text) = true
    /\ includes (body c) (prettierCommand_of v text) = true.
Proof.
  intros H Hne Htext.
  destruct v; cbn [changeSet_of run_of reported_text prettierCommand_of] in *.
  - destruct (exec env (Complete.checkCommand cs)) as [[out errout]|error] eqn:Ex;
      [discriminate|]. injection Htext as <-.
    destruct (complete_reports_nonzero_exit env fuel w w1 cs error H Hne Ex)
      as (_ & R & c & Hin & Hbody).
    rewrite R. exists c. split; [exact Hin|]. rewrite Hbody.
    destruct (failBody_shows (trim (e_stderr error))) as [Ht Hc].
    rewrite trim_idem in Ht. rewrite prettierCommand_trim in Hc.
    split; [apply startsWith_app|]. split; [exact Ht | exact Hc].
  - destruct (exec env (Minimal.checkCommand cs)) as [[out errout]|error] eqn:Ex;
      [|discriminate].
    destruct (includes out (u "Run Prettier to fix")) eqn:Eph; [|discriminate].
    rewrite (minimal_run_warnings env fuel w w1 cs out errout text H Hne Ex Eph Htext).
    destruct (upserted_has_body (Minimal.failBody text) (comments w1))
      as (c & Hin & Hbody).
    exists c. split; [exact Hin|]. rewrite Hbody.
    destruct (minimal_failBody_shows text) as [Ht Hc].
    split; [apply startsWith_app|]. split; [exact Ht | exact Hc].
Qed.

Lemma failure_comment_shows_text_and_command_witness :
  exists c,
    In c (comments (snd (run_of complete (demo_env pr_files check_fails) 3 two_comments)))
    /\ startsWith commentIdentifier (body c) = true
    /\ includes (body c) (trim stderr_two_files) = true
    /\ includes (body c) (prettierCommand_of complete stderr_two_files) = true.
Proof.
  apply (failure_comment_shows_text_and_command complete (demo_env pr_files check_fails) 3
           two_comments
           (add_events two_comments [ListFiles 100 1; ListFiles 100 2;
                                     ExistsSync (u ".prettierignore")])
           [u "a.ts"; u "c d.md"] stderr_two_files).
  - vm_compute. reflexivity.
  - discriminate.
  - reflexivity.
Defined.

(** X12.  A diagnostic text of one line, as when the tool cannot be run: no
    line is left once the footer (and, in main.ts, the header) is
    dropped, and the remediation command names no file. *)
Theorem one_line_diagnostic_names_no_file (v : Variant) (out : jsstring) :
  ~ In LF (trim out) ->
  prettierCommand_of v out = u "npx prettier --write ".
Proof.
  intros H. destruct v; cbn [prettierCommand_of];
    unfold Complete.prettierCommand, Complete.offendingFiles, Minimal.prettierCommand;
    rewrite (split_no_sep LF (trim out) H); cbn [tl removelast map join];
    apply app_nil_r.
Qed.

Lemma one_line_diagnostic_names_no_file_witness :
  prettierCommand_of complete (u "sh: 1: npx: not found" ++ nl)
  = u "npx prettier --write ".
Proof.
  apply (one_line_diagnostic_names_no_file complete (u "sh: 1: npx: not found" ++ nl)).
  vm_compute. intros H. repeat (destruct H as [H | H]; [discriminate|]). exact H.
Defined.
